(** * Controlled React forms: the lesson's event handlers, verified

    The repository is a lesson on controlled forms in React.  Its code is a
    handful of [Form] components: the one under [src/components/Form.js]
    (whose second revision validates a numeric input with [parseInt] and a
    range check) and the ones the README develops step by step (a generic
    [handleChange] keyed by the input's [name], and two [handleSubmit]s).

    Every handler is a straight-line function that reads the values its
    render closed over, calls a few built-ins of the JavaScript runtime and
    ends with calls of state setters.  The embedding follows that shape:

    - [JS] models the built-ins the handlers call: strings as sequences of
      UTF-16 code units, Numbers as IEEE binary64 values ([spec_float] of
      the Standard Library), [parseInt], the relational operators and the
      Number-to-String conversion a template literal performs;
    - each component is a module holding its state, its handlers (returning
      the list of calls they make, in program order) and the commit of
      these calls to the state, which is what React does before the next
      event is dispatched;
    - the theorems come last. *)

From Stdlib Require Import ZArith NArith List Bool Lia String Ascii.
From Stdlib Require Import DecimalString.
From Stdlib Require Import Floats.SpecFloat.
From stdpp Require Import gmap list.

(** ** The JavaScript runtime, as far as the handlers use it *)

Module JS.

(** A String value is a finite sequence of 16-bit code units. *)
Abbreviation jsstring := (list N).

(** An ASCII literal of the source, as code units. *)
Definition str (s : string) : jsstring :=
  map N_of_ascii (list_ascii_of_string s).

(** A Number value is an IEEE 754 binary64 value. *)
Abbreviation Number := spec_float.

Definition prec : Z := 53.
Definition emax : Z := 1024.

Definition NaN : Number := S754_nan.
Definition posZero : Number := S754_zero false.
Definition negZero : Number := S754_zero true.

(** [𝔽(z)] for a mathematical integer [z]: the Number nearest to [z]
    (ties to even, overflow to an infinity); [+0] for [0]. *)
Definition ofZ (z : Z) : Number := binary_normalize prec emax z 0 false.

(** [x >= y] and [x <= y] on Numbers: false as soon as an operand is NaN. *)
Definition geq (x y : Number) : bool := SFleb y x.
Definition leq (x y : Number) : bool := SFleb x y.

(** *** [parseInt(string)], with the radix left undefined *)

(** WhiteSpace and LineTerminator code points, all in the basic plane. *)
Definition isStrWhiteSpaceChar (c : N) : bool :=
  bool_decide (c ∈ [9; 10; 11; 12; 13; 32; 160; 5760; 8192; 8193; 8194;
                    8195; 8196; 8197; 8198; 8199; 8200; 8201; 8202; 8232;
                    8233; 8239; 8287; 12288; 65279]%N).

(** TrimString(string, start). *)
Fixpoint trimStart (s : jsstring) : jsstring :=
  match s with
  | c :: s' => if isStrWhiteSpaceChar c then trimStart s' else s
  | [] => []
  end.

(** The value of a code unit read as a digit: 0-9, a-z, A-Z. *)
Definition digitValue (c : N) : option Z :=
  if (48 <=? c)%N && (c <=? 57)%N then Some (Z.of_N c - 48)%Z
  else if (97 <=? c)%N && (c <=? 122)%N then Some (Z.of_N c - 87)%Z
  else if (65 <=? c)%N && (c <=? 90)%N then Some (Z.of_N c - 55)%Z
  else None.

Definition radixDigit (R : Z) (c : N) : option Z :=
  match digitValue c with
  | Some d => if (d <? R)%Z then Some d else None
  | None => None
  end.

(** The longest prefix of [s] made of radix-[R] digits, as digit values. *)
Fixpoint leadingDigits (R : Z) (s : jsstring) : list Z :=
  match s with
  | c :: s' =>
      match radixDigit R c with
      | Some d => d :: leadingDigits R s'
      | None => []
      end
  | [] => []
  end.

(** The integer a digit sequence denotes in radix [R]. *)
Definition radixValue (R : Z) (ds : list Z) : Z :=
  fold_left (fun acc d => acc * R + d)%Z ds 0%Z.

(** Steps 2 to 13 of parseInt: the sign and the mathematical integer read
    from the string, or [None] when no digit follows the optional sign and
    prefix.  [true] is the sign [-1]. *)
Definition parseInteger (string : jsstring) : option (bool * Z) :=
  let s := trimStart string in
  let sign := match s with 45%N :: _ => true | _ => false end in
  let s := match s with
           | 45%N :: s' => s'
           | 43%N :: s' => s'
           | _ => s
           end in
  let '(R, s) := match s with
                 | 48%N :: 120%N :: s' => (16%Z, s')
                 | 48%N :: 88%N :: s' => (16%Z, s')
                 | _ => (10%Z, s)
                 end in
  let numeral := leadingDigits R s in
  match numeral with
  | [] => None
  | _ => Some (sign, radixValue R numeral)
  end.

(** The mathematical value of a parse: sign times magnitude. *)
Definition signed (p : bool * Z) : Z :=
  if fst p then (- snd p)%Z else snd p.

(** [parseInt(string)].  The result is NaN, a zero (negative after a minus
    sign) or the Number nearest to the integer read.  For more than twenty
    significant digits the language lets an engine round the digits past
    the twentieth to zero first; the model rounds the exact integer. *)
Definition parseInt (string : jsstring) : Number :=
  match parseInteger string with
  | None => NaN
  | Some (sign, mathInt) =>
      if (mathInt =? 0)%Z then (if sign then negZero else posZero)
      else ofZ (signed (sign, mathInt))
  end.

(** *** Number::toString(x, 10), which a template literal applies *)

(** Decimal digits of a natural number. *)
Definition decimal (n : Z) : jsstring :=
  str (NilZero.string_of_uint (N.to_uint (Z.to_N n))).

(** Comparison of the rationals [a * 2^e] and [s * 10^q]. *)
Definition compareScaled (a e s q : Z) : comparison :=
  (a * 2 ^ Z.max e 0 * 10 ^ Z.max (- q) 0
   ?= s * 10 ^ Z.max q 0 * 2 ^ Z.max (- e) 0)%Z.

(** Does the real [s * 10^q] round to the Number [m * 2^e]?  It does when
    it lies between the midpoints to the two neighbouring Numbers, the
    midpoints included when [m] is even.  The gap below a power of two is
    half the gap above it. *)
Definition roundsTo (m e s q : Z) : bool :=
  let lo := if (m =? 2 ^ (prec - 1))%Z && (3 - emax - prec <? e)%Z
            then (4 * m - 1)%Z else (4 * m - 2)%Z in
  let hi := (4 * m + 2)%Z in
  match compareScaled lo (e - 2) s q, compareScaled hi (e - 2) s q with
  | Lt, Gt => true
  | Eq, Gt | Lt, Eq => Z.even m
  | _, _ => false
  end.

(** The [n] with [10^(n-1) <= m * 2^e < 10^n], searched upwards. *)
Fixpoint decimalExponent (fuel : nat) (m e n : Z) : Z :=
  match fuel with
  | O => n
  | Datatypes.S fuel' =>
      match compareScaled m e 1 n with
      | Lt => n
      | _ => decimalExponent fuel' m e (n + 1)%Z
      end
  end.

(** The distance of [s * 10^q] to [m * 2^e], as a fraction. *)
Definition distance (m e s q : Z) : Z * Z :=
  (Z.abs (s * 10 ^ Z.max q 0 * 2 ^ Z.max (- e) 0
          - m * 2 ^ Z.max e 0 * 10 ^ Z.max (- q) 0),
   2 ^ Z.max (- e) 0 * 10 ^ Z.max (- q) 0)%Z.

Definition closer (m e : Z) (c1 c2 : Z * Z) : bool :=
  let '(n1, d1) := distance m e (fst c1) (snd c1) in
  let '(n2, d2) := distance m e (fst c2) (snd c2) in
  match (n1 * d2 ?= n2 * d1)%Z with
  | Lt => true
  | Eq => Z.even (fst c1)
  | Gt => false
  end.

(** The digit strings of exactly [k] digits that round to [m * 2^e], each
    with its power of ten: pairs [(s, q)] with [10^(k-1) <= s < 10^k]. *)
Definition candidates (m e n k : Z) : list (Z * Z) :=
  flat_map
    (fun n' =>
       let q := (n' - k)%Z in
       let s0 := ((m * 2 ^ Z.max e 0 * 10 ^ Z.max (- q) 0)
                  / (2 ^ Z.max (- e) 0 * 10 ^ Z.max q 0))%Z in
       filter
         (fun c => (10 ^ (k - 1) <=? fst c)%Z && (fst c <? 10 ^ k)%Z
                   && roundsTo m e (fst c) (snd c))
         [(s0, q); ((s0 + 1)%Z, q)])
    [(n - 1)%Z; n; (n + 1)%Z].

(** The shortest digit string that rounds to [m * 2^e] and, among those of
    that length, the closest one: [(s, q, k)]. *)
Fixpoint shortest (fuel : nat) (m e n k : Z) : Z * Z * Z :=
  match fuel with
  | O => (m, e, k)
  | Datatypes.S fuel' =>
      match candidates m e n k with
      | c :: cs =>
          (fold_left (fun best c' => if closer m e c' best then c' else best)
                     cs c, k)
      | [] => shortest fuel' m e n (k + 1)%Z
      end
  end.

Definition zeros (n : Z) : jsstring := repeat 48%N (Z.to_nat n).

(** Steps 5 to the end of Number::toString for the positive finite
    Number [m * 2^e]. *)
Definition finiteToString (m e : Z) : jsstring :=
  let n0 := decimalExponent 700 m e (-330)%Z in
  let '(s, q, k) := shortest 17 m e n0 1%Z in
  let n := (q + k)%Z in
  let digits := decimal s in
  if (-5 <=? n)%Z && (n <=? 21)%Z then
    if (k <=? n)%Z then digits ++ zeros (n - k)
    else if (0 <? n)%Z then
      take (Z.to_nat n) digits ++ str "." ++ drop (Z.to_nat n) digits
    else str "0." ++ zeros (- n) ++ digits
  else
    let exponent :=
      str "e" ++ (if (0 <? n - 1)%Z then str "+" else str "-")
              ++ decimal (Z.abs (n - 1)) in
    if (k =? 1)%Z then digits ++ exponent
    else take 1 digits ++ str "." ++ drop 1 digits ++ exponent.

Definition NumberToString (x : Number) : jsstring :=
  match x with
  | S754_nan => str "NaN"
  | S754_zero _ => str "0"
  | S754_infinity false => str "Infinity"
  | S754_infinity true => str "-Infinity"
  | S754_finite false m e => finiteToString (Z.pos m) e
  | S754_finite true m e => str "-" ++ finiteToString (Z.pos m) e
  end.

End JS.

(** ** Values, events and objects *)

Module DOM.
Import JS.

(** The primitive values the forms keep in state. *)
Inductive Value :=
| Null
| Bool (b : bool)
| Num (n : Number)
| Str (s : jsstring).

(** The part of an input element a change handler reads: [event.target]. *)
Record Target := {
  name : jsstring;
  type : jsstring;
  value : jsstring;
  checked : bool
}.

Record Event := { target : Target }.

End DOM.

(** A plain object with primitive properties, keyed by property name.  The
    handlers only read and write properties by key; the order in which an
    object enumerates them is not observed and not modelled. *)
Abbreviation Object := (gmap (list N) DOM.Value).

(** ** [Parent], which owns the two text fields of [src/components/Form.js] *)

Module Parent.
Import JS DOM.

Record State := { firstName : jsstring; lastName : jsstring }.

(** [useState("John")], [useState("Henry")]. *)
Definition initial : State :=
  {| firstName := str "John"; lastName := str "Henry" |}.

Inductive Call :=
| preventDefault
| setFirstName (v : jsstring)
| setLastName (v : jsstring).

Definition handleFirstNameChange (e : Event) : list Call :=
  [preventDefault; setFirstName (value (target e))].

Definition handleLastNameChange (e : Event) : list Call :=
  [preventDefault; setLastName (value (target e))].

Definition apply (st : State) (c : Call) : State :=
  match c with
  | preventDefault => st
  | setFirstName v => {| firstName := v; lastName := lastName st |}
  | setLastName v => {| firstName := firstName st; lastName := v |}
  end.

(** React applies the queued setter calls in order before it renders again. *)
Definition commit (st : State) (calls : list Call) : State :=
  fold_left apply calls st.

End Parent.

(** ** [Form] of [src/components/Form.js]: the validated numeric input *)

Module NumberForm.
Import JS DOM.

Record State := { number : Number; isInvalidNumber : option jsstring }.

(** [useState(0)], [useState(null)]. *)
Definition initial : State :=
  {| number := ofZ 0; isInvalidNumber := None |}.

Inductive Call :=
| setNumber (n : Number)
| setIsInvalidNumber (message : option jsstring).

Definition handleNumberChange (e : Event) : list Call :=
  let newNumber := parseInt (value (target e)) in
  if geq newNumber (ofZ 0) && leq newNumber (ofZ 5) then
    [setNumber newNumber; setIsInvalidNumber None]
  else
    [setIsInvalidNumber
       (Some (NumberToString newNumber ++ str " is not a valid number!"))].

Definition apply (st : State) (c : Call) : State :=
  match c with
  | setNumber n => {| number := n; isInvalidNumber := isInvalidNumber st |}
  | setIsInvalidNumber m => {| number := number st; isInvalidNumber := m |}
  end.

Definition commit (st : State) (calls : list Call) : State :=
  fold_left apply calls st.

End NumberForm.

(** ** The rendered tree: [Parent] with its [Form] child *)

Module App.
Import JS DOM.

Record State := { parent : Parent.State; form : NumberForm.State }.

Definition initial : State :=
  {| parent := Parent.initial; form := NumberForm.initial |}.

(** A change event on one of the three inputs [Form] renders, each wired
    to its handler by the [onChange] attribute. *)
Inductive Input :=
| FirstNameInput (e : Event)
| LastNameInput (e : Event)
| NumberInput (e : Event).

(** One event: the handler runs to completion and its calls are committed. *)
Definition dispatch (st : State) (i : Input) : State :=
  match i with
  | FirstNameInput e =>
      {| parent := Parent.commit (parent st) (Parent.handleFirstNameChange e);
         form := form st |}
  | LastNameInput e =>
      {| parent := Parent.commit (parent st) (Parent.handleLastNameChange e);
         form := form st |}
  | NumberInput e =>
      {| parent := parent st;
         form := NumberForm.commit (form st)
                   (NumberForm.handleNumberChange e) |}
  end.

Definition run (inputs : list Input) (st : State) : State :=
  fold_left dispatch inputs st.

End App.

(** ** The README's final [Form]: one [formData] object, one [handleChange] *)

Module ControlledForm.
Import JS DOM.

(** [useState({ firstName: "John", lastName: "Henry", admin: false })]. *)
Definition initial : Object :=
  {[ str "firstName" := Str (str "John");
     str "lastName" := Str (str "Henry");
     str "admin" := Bool false ]}.

Inductive Call :=
| preventDefault
| consoleLog (data : Object)
| setFormData (data : Object).

(** [formData] is the object the render closed over. *)
Definition handleChange (formData : Object) (event : Event) : list Call :=
  let name := name (target event) in
  let value := Str (value (target event)) in
  let value :=
    if bool_decide (type (target event) = str "checkbox")
    then Bool (checked (target event))
    else value in
  [setFormData (<[name := value]> formData)].

Definition handleSubmit (formData : Object) (event : Event) : list Call :=
  [preventDefault; consoleLog formData].

Definition apply (formData : Object) (c : Call) : Object :=
  match c with
  | setFormData data => data
  | _ => formData
  end.

Definition commit (formData : Object) (calls : list Call) : Object :=
  fold_left apply calls formData.

(** One change event: the handler of the current render runs, then React
    renders again with the committed state. *)
Definition onChange (formData : Object) (event : Event) : Object :=
  commit formData (handleChange formData event).

Definition run (events : list Event) (formData : Object) : Object :=
  fold_left onChange events formData.

End ControlledForm.

(** ** The README's [handleSubmit] that hands the data to a callback *)

Module SubmitForm.
Import JS DOM.

(** The state variables of the component, by name: [firstName] and
    [lastName] at least, and whatever else the integrating form keeps. *)
Abbreviation Cells := (gmap (list N) Value).

Inductive Call :=
| preventDefault
| sendFormDataSomewhere (formData : Object)
| setFirstName (v : jsstring)
| setLastName (v : jsstring).

(** [firstName] and [lastName] are the values the render closed over; the
    callback is taken to return. *)
Definition handleSubmit (firstName lastName : Value) : list Call :=
  let formData : Object :=
    {[ str "firstName" := firstName; str "lastName" := lastName ]} in
  [preventDefault;
   sendFormDataSomewhere formData;
   setFirstName (str "");
   setLastName (str "")].

(** The handler of the render of [cells]. *)
Definition onSubmit (cells : Cells) : option (list Call) :=
  match cells !! str "firstName", cells !! str "lastName" with
  | Some firstName, Some lastName => Some (handleSubmit firstName lastName)
  | _, _ => None
  end.

Definition apply (cells : Cells) (c : Call) : Cells :=
  match c with
  | setFirstName v => <[str "firstName" := Str v]> cells
  | setLastName v => <[str "lastName" := Str v]> cells
  | _ => cells
  end.

Definition commit (cells : Cells) (calls : list Call) : Cells :=
  fold_left apply calls cells.

(** What the callback was called with, call by call. *)
Definition received (calls : list Call) : list Object :=
  flat_map (fun c => match c with
                     | sendFormDataSomewhere d => [d]
                     | _ => []
                     end) calls.

End SubmitForm.

(** ** The README's [Form] that lists its submissions

    Here the submitted data stays in the component: [submittedData] is an
    array of the objects [handleSubmit] built.  Arrays and objects are
    reference values, so the model keeps a heap and the state holds the
    array's address. *)

Module SubmissionList.
Import JS DOM.

Definition loc := nat.

Inductive HeapObject :=
| HObject (props : Object)
| HArray (elems : list loc).

(** Allocation appends: an address is an index into the heap. *)
Abbreviation Heap := (list HeapObject).

Definition alloc (o : HeapObject) (h : Heap) : loc * Heap :=
  (length h, h ++ [o]).

Record State := {
  firstName : jsstring;
  lastName : jsstring;
  submittedData : loc
}.

(** [useState("John")], [useState("Henry")], [useState([])]. *)
Definition initial : State * Heap :=
  let '(arr, h) := alloc (HArray []) [] in
  ({| firstName := str "John"; lastName := str "Henry";
      submittedData := arr |}, h).

Inductive Call :=
| preventDefault
| setFirstName (v : jsstring)
| setLastName (v : jsstring)
| setSubmittedData (a : loc).

Definition handleFirstNameChange (event : Event) : list Call :=
  [setFirstName (value (target event))].

Definition handleLastNameChange (event : Event) : list Call :=
  [setLastName (value (target event))].

(** [firstName], [lastName] and [submittedData] are the values the render
    closed over.  Spreading something that is no array throws: [None]. *)
Definition handleSubmit (firstName lastName : jsstring) (submittedData : loc)
    (h : Heap) : option (list Call * Heap) :=
  let '(formData, h) :=
    alloc (HObject {[ str "firstName" := Str firstName;
                      str "lastName" := Str lastName ]}) h in
  match h !! submittedData with
  | Some (HArray elems) =>
      let '(dataArray, h) := alloc (HArray (elems ++ [formData])) h in
      Some ([preventDefault;
             setSubmittedData dataArray;
             setFirstName (str "");
             setLastName (str "")], h)
  | _ => None
  end.

Definition apply (st : State) (c : Call) : State :=
  match c with
  | preventDefault => st
  | setFirstName v =>
      {| firstName := v; lastName := lastName st;
         submittedData := submittedData st |}
  | setLastName v =>
      {| firstName := firstName st; lastName := v;
         submittedData := submittedData st |}
  | setSubmittedData a =>
      {| firstName := firstName st; lastName := lastName st;
         submittedData := a |}
  end.

Definition commit (st : State) (calls : list Call) : State :=
  fold_left apply calls st.

Inductive Input :=
| FirstNameInput (event : Event)
| LastNameInput (event : Event)
| Submit.

(** One event on the rendered form. *)
Definition dispatch (s : State * Heap) (i : Input) : option (State * Heap) :=
  let '(st, h) := s in
  match i with
  | FirstNameInput event => Some (commit st (handleFirstNameChange event), h)
  | LastNameInput event => Some (commit st (handleLastNameChange event), h)
  | Submit =>
      match handleSubmit (firstName st) (lastName st) (submittedData st) h with
      | Some (calls, h') => Some (commit st calls, h')
      | None => None
      end
  end.

Fixpoint run (inputs : list Input) (s : State * Heap) : option (State * Heap) :=
  match inputs with
  | [] => Some s
  | i :: inputs' =>
      match dispatch s i with
      | Some s' => run inputs' s'
      | None => None
      end
  end.

End SubmissionList.

(** ** Vocabulary of the properties

    Events to evaluate the handlers on, and the observations the theorems
    are stated with. *)

Module Vocabulary.
Import JS DOM.
Local Open Scope Z_scope.

(** A change event of the numeric input showing [v]. *)
Definition numberInput (v : string) : Event :=
  {| target := {| name := []; type := str "number"; value := str v;
                  checked := false |} |}.

(** "The stored numeric value lies in the inclusive range [0, 5]": it is
    one of the integers 0 to 5 (or the zero of negative sign). *)
Definition storedInRange (n : Number) : Prop :=
  exists k, 0 <= k <= 5 /\ (n = ofZ k \/ (k = 0 /\ n = negZero)).

(** Change events of a text input and of a checkbox. *)
Definition textInput (field text : string) : Event :=
  {| target := {| name := str field; type := str "text"; value := str text;
                  checked := false |} |}.

Definition checkboxInput (field : string) (isChecked : bool) : Event :=
  {| target := {| name := str field; type := str "checkbox";
                  value := str "on"; checked := isChecked |} |}.

(** What [handleChange] reads off the event as the new value: the
    [checked] flag of a checkbox, the [value] string of any other input. *)
Definition inputValue (event : Event) : Value :=
  if bool_decide (type (target event) = str "checkbox")
  then Bool (checked (target event))
  else Str (value (target event)).

(** "The integer obtained by parsing [v] lies in the inclusive range
    [0, 5]", on the mathematical integer [parseInt] reads. *)
Definition parsesInRange (v : jsstring) : bool :=
  match parseInteger v with
  | Some p => (0 <=? signed p) && (signed p <=? 5)
  | None => false
  end.

(** The object [handleSubmit] builds from the two names. *)
Definition snapshot (first last : jsstring) : SubmissionList.HeapObject :=
  SubmissionList.HObject
    {[ str "firstName" := Str first; str "lastName" := Str last ]}.

End Vocabulary.

(** ** The [Form] with three state variables and three handlers

    The form of [src] with a newsletter checkbox; the README's first forms
    are the same without the checkbox. *)

Module NewsletterForm.
Import JS DOM.

Record State := {
  firstName : jsstring;
  lastName : jsstring;
  newsLetter : bool
}.

(** [useState("")], [useState("")], [useState(false)]. *)
Definition initial : State :=
  {| firstName := str ""; lastName := str ""; newsLetter := false |}.

Inductive Call :=
| setFirstName (v : jsstring)
| setLastName (v : jsstring)
| setNewsLetter (b : bool).

Definition handleFirstNameChange (event : Event) : list Call :=
  [setFirstName (value (target event))].

Definition handleLastNameChange (event : Event) : list Call :=
  [setLastName (value (target event))].

Definition handleNewsLetterChange (event : Event) : list Call :=
  [setNewsLetter (checked (target event))].

Definition apply (st : State) (c : Call) : State :=
  match c with
  | setFirstName v =>
      {| firstName := v; lastName := lastName st;
         newsLetter := newsLetter st |}
  | setLastName v =>
      {| firstName := firstName st; lastName := v;
         newsLetter := newsLetter st |}
  | setNewsLetter b =>
      {| firstName := firstName st; lastName := lastName st;
         newsLetter := b |}
  end.

Definition commit (st : State) (calls : list Call) : State :=
  fold_left apply calls st.

(** A change event on one of the three inputs, each wired to its own
    handler. *)
Inductive Input :=
| FirstNameInput (event : Event)
| LastNameInput (event : Event)
| NewsLetterInput (event : Event).

Definition dispatch (st : State) (i : Input) : State :=
  match i with
  | FirstNameInput event => commit st (handleFirstNameChange event)
  | LastNameInput event => commit st (handleLastNameChange event)
  | NewsLetterInput event => commit st (handleNewsLetterChange event)
  end.

Definition run (inputs : list Input) (st : State) : State :=
  fold_left dispatch inputs st.

End NewsletterForm.

(** ** The README's first refactors: one [formData] object

    First with one handler per field, then with one [handleChange] keyed
    by [event.target.name] that reads [event.target.value] only. *)

Module ObjectForm.
Import JS DOM.

(** [useState({ firstName: "John", lastName: "Henry" })]. *)
Definition initial : Object :=
  {[ str "firstName" := Str (str "John");
     str "lastName" := Str (str "Henry") ]}.

Inductive Call :=
| setFormData (data : Object).

Definition handleFirstNameChange (formData : Object) (event : Event)
    : list Call :=
  [setFormData (<[str "firstName" := Str (value (target event))]> formData)].

Definition handleLastNameChange (formData : Object) (event : Event)
    : list Call :=
  [setFormData (<[str "lastName" := Str (value (target event))]> formData)].

Definition handleChange (formData : Object) (event : Event) : list Call :=
  let name := name (target event) in
  let value := value (target event) in
  [setFormData (<[name := Str value]> formData)].

Definition apply (formData : Object) (c : Call) : Object :=
  match c with
  | setFormData data => data
  end.

Definition commit (formData : Object) (calls : list Call) : Object :=
  fold_left apply calls formData.

End ObjectForm.

(** ** What the list of submissions renders

    [listOfSubmissions] maps every element of [submittedData] to a row
    showing [data.firstName], a space and [data.lastName]. *)

Module SubmissionRows.
Import JS DOM SubmissionList.

(** The text React renders for a child: a string as it is, a number
    converted to a string, nothing for [null], [undefined] or a boolean. *)
Definition renderChild (v : option Value) : jsstring :=
  match v with
  | Some (Str s) => s
  | Some (Num n) => NumberToString n
  | _ => []
  end.

(** The row of the element at address [l]; reading a property an object
    does not have gives [undefined].  [None]: no such address. *)
Definition renderRow (h : Heap) (l : loc) : option jsstring :=
  match h !! l with
  | Some (HObject data) =>
      Some (renderChild (data !! str "firstName") ++ str " "
            ++ renderChild (data !! str "lastName"))
  | Some (HArray _) => Some (str " ")
  | None => None
  end.

(** [submittedData.map(...)]; calling [map] on what is no array throws. *)
Definition listOfSubmissions (submittedData : loc) (h : Heap)
    : option (list jsstring) :=
  match h !! submittedData with
  | Some (HArray elems) => mapM (renderRow h) elems
  | _ => None
  end.

End SubmissionRows.

(** ** Further vocabulary *)

Module Observations.
Import JS DOM.
Local Open Scope Z_scope.

(** The event of an input of the tree, by the element it came from. *)
Definition numberEvent (i : App.Input) : option Event :=
  match i with App.NumberInput e => Some e | _ => None end.

Definition firstNameEvent (i : App.Input) : option Event :=
  match i with App.FirstNameInput e => Some e | _ => None end.

Definition lastNameEvent (i : App.Input) : option Event :=
  match i with App.LastNameInput e => Some e | _ => None end.

(** An input that is no accepted change of the numeric field. *)
Definition keepsNumber (i : App.Input) : bool :=
  match numberEvent i with
  | Some e => negb (Vocabulary.parsesInRange (value (target e)))
  | None => true
  end.

(** The message a rejected change of the numeric field records. *)
Definition rejection (e : Event) : jsstring :=
  NumberToString (parseInt (value (target e)))
  ++ str " is not a valid number!".

(** Decimal digits and the integer a string of them denotes. *)
Definition isDecimalDigit (c : N) : bool := (48 <=? c)%N && (c <=? 57)%N.

Definition decimalValue (ds : jsstring) : Z :=
  radixValue 10 (map (fun c => Z.of_N c - 48) ds).

(** The text does not begin with a decimal digit. *)
Definition noLeadingDigit (rest : jsstring) : bool :=
  match rest with
  | c :: _ => negb (isDecimalDigit c)
  | [] => true
  end.

(** The digits and what follows do not spell the prefix [0x] or [0X]. *)
Definition noHexPrefix (ds rest : jsstring) : bool :=
  match ds, rest with
  | [48%N], 120%N :: _ => false
  | [48%N], 88%N :: _ => false
  | _, _ => true
  end.

(** An optional sign: nothing, [+] or [-]. *)
Definition isSign (s : jsstring) : bool :=
  bool_decide (s = [] \/ s = [43%N] \/ s = [45%N]).

(** The form data that holds the three state variables of
    [NewsletterForm] under their names. *)
Definition asFormData (st : NewsletterForm.State) : Object :=
  {[ str "firstName" := Str (NewsletterForm.firstName st);
     str "lastName" := Str (NewsletterForm.lastName st);
     str "newsLetter" := Bool (NewsletterForm.newsLetter st) ]}.

Definition eventOf (i : NewsletterForm.Input) : Event :=
  match i with
  | NewsletterForm.FirstNameInput event => event
  | NewsletterForm.LastNameInput event => event
  | NewsletterForm.NewsLetterInput event => event
  end.

(** The input's element carries the name of its state variable, and is a
    checkbox exactly when it is the newsletter box. *)
Definition namedAfterState (i : NewsletterForm.Input) : bool :=
  match i with
  | NewsletterForm.FirstNameInput event =>
      bool_decide (name (target event) = str "firstName")
      && negb (bool_decide (type (target event) = str "checkbox"))
  | NewsletterForm.LastNameInput event =>
      bool_decide (name (target event) = str "lastName")
      && negb (bool_decide (type (target event) = str "checkbox"))
  | NewsletterForm.NewsLetterInput event =>
      bool_decide (name (target event) = str "newsLetter")
      && bool_decide (type (target event) = str "checkbox")
  end.

Definition isSubmit (i : SubmissionList.Input) : bool :=
  match i with SubmissionList.Submit => true | _ => false end.

End Observations.

(** * Theorems *)

(** ** The runtime model on known values *)

Module RuntimeExamples.
Import JS.
Local Open Scope Z_scope.

(** Each conjunct is an equation between closed terms. *)
Ltac evaluate :=
  repeat match goal with |- _ /\ _ => split end; vm_compute; reflexivity.

Example parseInt_digit : parseInt (str "5") = ofZ 5.
Proof. evaluate. Qed.

Example parseInt_stops_at_first_non_digit :
  parseInt (str "42px") = ofZ 42 /\ parseInt (str "5.9") = ofZ 5
  /\ parseInt (str "1e3") = ofZ 1.
Proof. evaluate. Qed.

Example parseInt_skips_leading_white_space :
  parseInt ([9; 10; 32; 160] ++ str "3")%N = ofZ 3.
Proof. evaluate. Qed.

Example parseInt_sign :
  parseInt (str "+7") = ofZ 7 /\ parseInt (str "-7") = ofZ (-7)
  /\ parseInt (str "-0") = negZero /\ parseInt (str "- 7") = NaN.
Proof. evaluate. Qed.

Example parseInt_hexadecimal :
  parseInt (str "0x1F") = ofZ 31 /\ parseInt (str "-0Xa") = ofZ (-10)
  /\ parseInt (str "0x") = NaN.
Proof. evaluate. Qed.

Example parseInt_no_digit :
  parseInt [] = NaN /\ parseInt (str "abc") = NaN /\ parseInt (str ".5") = NaN.
Proof. evaluate. Qed.

Example parseInt_rounds_to_binary64 :
  parseInt (str "9007199254740993") = ofZ 9007199254740992.
Proof. evaluate. Qed.

Example toString_small_integers :
  NumberToString (ofZ 9) = str "9" /\ NumberToString (ofZ 100) = str "100"
  /\ NumberToString (ofZ (-42)) = str "-42"
  /\ NumberToString negZero = str "0".
Proof. evaluate. Qed.

Example toString_large_integers :
  NumberToString (ofZ (2 ^ 53 + 1)) = str "9007199254740992"
  /\ NumberToString (ofZ (2 ^ 64)) = str "18446744073709552000"
  /\ NumberToString (ofZ (10 ^ 21)) = str "1e+21"
  /\ NumberToString (ofZ 123456789012345678901234567890)
     = str "1.2345678901234568e+29".
Proof. evaluate. Qed.

Example toString_not_finite :
  NumberToString NaN = str "NaN"
  /\ NumberToString (ofZ (10 ^ 309)) = str "Infinity"
  /\ NumberToString (ofZ (- 10 ^ 309)) = str "-Infinity".
Proof. evaluate. Qed.

Example toString_fractions :
  NumberToString (SFdiv prec emax (ofZ 1) (ofZ 10)) = str "0.1"
  /\ NumberToString (SFdiv prec emax (ofZ 3) (ofZ 2)) = str "1.5"
  /\ NumberToString (SFadd prec emax (SFdiv prec emax (ofZ 1) (ofZ 10))
                                     (SFdiv prec emax (ofZ 2) (ofZ 10)))
     = str "0.30000000000000004"
  /\ NumberToString (SFdiv prec emax (ofZ 1) (ofZ 10000000)) = str "1e-7"
  /\ NumberToString (S754_finite false 1 (-1074)) = str "5e-324".
Proof. evaluate. Qed.

Example range_check_on_NaN :
  geq NaN (ofZ 0) = false /\ leq NaN (ofZ 5) = false.
Proof. evaluate. Qed.

End RuntimeExamples.

(** ** Rounding an integer to a Number

    [ofZ] is the Standard Library's [binary_normalize].  The handlers only
    compare its result with [0] and [5], so what is needed is that rounding
    keeps a non-zero integer away from zero, on its side of it, and an
    integer above five above five. *)

Module Rounding.
Import JS.
Local Open Scope Z_scope.

Lemma digits2_pos_bounds (p : positive) :
  2 ^ (Z.pos (digits2_pos p) - 1) <= Z.pos p < 2 ^ Z.pos (digits2_pos p).
Proof.
  induction p as [p IH|p IH|]; simpl digits2_pos.
  - rewrite Pos2Z.inj_succ.
    replace (Z.succ (Z.pos (digits2_pos p)) - 1)
      with (Z.succ (Z.pos (digits2_pos p) - 1)) by lia.
    rewrite !Z.pow_succ_r by lia. lia.
  - rewrite Pos2Z.inj_succ.
    replace (Z.succ (Z.pos (digits2_pos p)) - 1)
      with (Z.succ (Z.pos (digits2_pos p) - 1)) by lia.
    rewrite !Z.pow_succ_r by lia. lia.
  - simpl. lia.
Qed.

Lemma digits2_pos_shift (p n : positive) :
  digits2_pos (Pos.iter xO p n) = (digits2_pos p + n)%positive.
Proof.
  induction n as [|n IH] using Pos.peano_ind.
  - simpl. lia.
  - rewrite Pos.iter_succ. simpl. rewrite IH. lia.
Qed.

Lemma shr_1_half mrs : 0 <= shr_m mrs -> shr_m (shr_1 mrs) = shr_m mrs / 2.
Proof.
  destruct mrs as [m r s]. simpl. intros Hm.
  destruct m as [|p|p]; [reflexivity| |lia].
  rewrite <- Z.div2_div. destruct p; reflexivity.
Qed.

Lemma iter_shr_1 (k : positive) : forall mrs,
  0 <= shr_m mrs ->
  shr_m (SpecFloat.iter_pos shr_1 k mrs) = shr_m mrs / 2 ^ Z.pos k.
Proof.
  induction k as [k IH|k IH|]; intros mrs Hm; simpl SpecFloat.iter_pos.
  - assert (H1 : 0 <= shr_m (shr_1 mrs))
      by (rewrite shr_1_half by lia; apply Z.div_pos; lia).
    assert (H2 : 0 <= shr_m (SpecFloat.iter_pos shr_1 k (shr_1 mrs)))
      by (rewrite IH by lia; apply Z.div_pos; lia).
    rewrite IH, IH, shr_1_half by lia.
    rewrite !Z.div_div by lia.
    f_equal. change (Z.pos k~1) with (2 * Z.pos k + 1).
    replace (2 * Z.pos k + 1) with (1 + Z.pos k + Z.pos k) by lia.
    rewrite !Z.pow_add_r by lia. lia.
  - assert (H2 : 0 <= shr_m (SpecFloat.iter_pos shr_1 k mrs))
      by (rewrite IH by lia; apply Z.div_pos; lia).
    rewrite IH, IH by lia.
    rewrite !Z.div_div by lia.
    f_equal. change (Z.pos k~0) with (2 * Z.pos k).
    replace (2 * Z.pos k) with (Z.pos k + Z.pos k) by lia.
    rewrite Z.pow_add_r by lia. lia.
  - rewrite shr_1_half by lia. reflexivity.
Qed.

Lemma shr_fexp_positive (m : positive) (e : Z) (l : location) :
  -1000 <= e ->
  0 < shr_m (fst (shr_fexp prec emax (Z.pos m) e l)) /\
  e <= snd (shr_fexp prec emax (Z.pos m) e l) /\
  Z.pos (digits2_pos m) + e - 53 <= snd (shr_fexp prec emax (Z.pos m) e l).
Proof.
  intros He. unfold shr_fexp, shr, fexp, emin, prec, emax. simpl Zdigits2.
  pose proof (digits2_pos_bounds m) as [Hlo _].
  set (d := Z.pos (digits2_pos m)) in *.
  assert (Hd : 0 < d) by (unfold d; lia).
  assert (Hm : shr_m (shr_record_of_loc (Z.pos m) l) = Z.pos m)
    by (destruct l as [|[]]; reflexivity).
  rewrite Z.max_l by lia.
  destruct (d + e - 53 - e) as [|k|k] eqn:Hn; simpl fst; simpl snd.
  - rewrite Hm. lia.
  - rewrite iter_shr_1 by (rewrite Hm; lia). rewrite Hm. split; [|lia].
    apply Z.div_str_pos. split; [apply Z.pow_pos_nonneg; lia|].
    transitivity (2 ^ (d - 1)); [|exact Hlo].
    apply Z.pow_le_mono_r; lia.
  - rewrite Hm. lia.
Qed.

Lemma round_nearest_even_positive (m : Z) (l : location) :
  0 < m -> 0 < round_nearest_even m l.
Proof.
  intros Hm. destruct l as [|[]]; simpl; try lia.
  destruct (Z.even m); lia.
Qed.

Lemma binary_round_aux_shape
    (s : bool) (m : positive) (e : Z) (l : location) :
  -1000 <= e ->
  binary_round_aux prec emax s (Z.pos m) e l = S754_infinity s \/
  exists m' e',
    binary_round_aux prec emax s (Z.pos m) e l = S754_finite s m' e' /\
    Z.pos (digits2_pos m) + e - 53 <= e'.
Proof.
  intros He. unfold binary_round_aux.
  destruct (shr_fexp_positive m e l He) as (Hm1 & He1 & Hd1).
  destruct (shr_fexp prec emax (Z.pos m) e l) as [mrs1 e1].
  simpl in Hm1, He1, Hd1.
  pose proof (round_nearest_even_positive
                (shr_m mrs1) (loc_of_shr_record mrs1) Hm1) as Hm2.
  destruct (round_nearest_even (shr_m mrs1) (loc_of_shr_record mrs1))
    as [|m2|m2]; try lia.
  destruct (shr_fexp_positive m2 e1 loc_Exact ltac:(lia)) as (Hm3 & He2 & _).
  destruct (shr_fexp prec emax (Z.pos m2) e1 loc_Exact) as [mrs2 e2].
  simpl in Hm3, He2.
  destruct (shr_m mrs2) as [|m3|m3]; try lia.
  destruct (e2 <=? emax - prec); [right|left; reflexivity].
  exists m3, e2. split; [reflexivity|lia].
Qed.

Lemma binary_round_shape (s : bool) (p : positive) :
  binary_round prec emax s p 0 = S754_infinity s \/
  exists m e,
    binary_round prec emax s p 0 = S754_finite s m e /\
    Z.pos (digits2_pos p) - 53 <= e.
Proof.
  set (d := Z.pos (digits2_pos p)).
  assert (Hd : 0 < d) by (unfold d; lia).
  assert (Hfexp : fexp prec emax (d + 0) = d - 53)
    by (unfold fexp, emin, prec, emax; lia).
  unfold binary_round. fold d. rewrite Hfexp. unfold shl_align.
  destruct (d - 53 - 0) as [|k|k] eqn:Hk.
  - destruct (binary_round_aux_shape s p 0 loc_Exact ltac:(lia))
      as [H|(m & e & H & Hb)]; [left; exact H|right].
    exists m, e. split; [exact H|]. fold d in Hb. lia.
  - destruct (binary_round_aux_shape s p 0 loc_Exact ltac:(lia))
      as [H|(m & e & H & Hb)]; [left; exact H|right].
    exists m, e. split; [exact H|]. fold d in Hb. lia.
  - destruct (binary_round_aux_shape s (Pos.iter xO p k) (d - 53)
                loc_Exact ltac:(lia))
      as [H|(m & e & H & Hb)]; [left; exact H|right].
    exists m, e. split; [exact H|]. rewrite digits2_pos_shift in Hb.
    fold d in Hb. lia.
Qed.

(** Comparisons of a rounded integer with the literals [0] and [5]. *)
Lemma ofZ_negative (p : positive) : geq (ofZ (Z.neg p)) (ofZ 0) = false.
Proof.
  unfold geq, ofZ; simpl.
  destruct (binary_round_shape true p) as [H|(m & e & H & _)];
    rewrite H; reflexivity.
Qed.

Lemma ofZ_above_5 (p : positive) :
  5 < Z.pos p -> leq (ofZ (Z.pos p)) (ofZ 5) = false.
Proof.
  intros Hp. unfold leq, ofZ; simpl binary_normalize.
  destruct (binary_round_shape false p) as [H|(m & e & H & Hb)].
  - rewrite H. reflexivity.
  - pose proof (digits2_pos_bounds p) as [_ Hhi].
    destruct (Z.eq_dec (Z.pos p) 6) as [->%Pos2Z.inj|].
    { reflexivity. }
    destruct (Z.eq_dec (Z.pos p) 7) as [->%Pos2Z.inj|].
    { reflexivity. }
    assert (Hd : 4 <= Z.pos (digits2_pos p)).
    { destruct (Z_lt_le_dec (Z.pos (digits2_pos p)) 4) as [Hlt|]; [|assumption].
      exfalso.
      assert (2 ^ Z.pos (digits2_pos p) <= 2 ^ 3)
        by (apply Z.pow_le_mono_r; lia).
      change (2 ^ 3) with 8 in *. lia. }
    rewrite H. unfold SFleb, SFcompare.
    change (binary_round prec emax false 5 0)
      with (S754_finite false 5629499534213120 (-50)).
    cbv beta iota.
    replace (IntDef.Z.compare e (-50)) with Gt; [reflexivity|].
    symmetry. apply Z.compare_gt_iff. lia.
Qed.

Lemma ofZ_in_range (z : Z) :
  1 <= z <= 5 -> geq (ofZ z) (ofZ 0) && leq (ofZ z) (ofZ 5) = true.
Proof.
  intros Hz.
  assert (H : z = 1 \/ z = 2 \/ z = 3 \/ z = 4 \/ z = 5) by lia.
  destruct H as [->|[->|[->|[->| ->]]]]; reflexivity.
Qed.
End Rounding.

(** ** What [parseInt] returns *)

Module ParseIntFacts.
Import JS Vocabulary.
Local Open Scope Z_scope.

Lemma digitValue_nonneg (c : N) (d : Z) : digitValue c = Some d -> 0 <= d.
Proof.
  unfold digitValue. intros H.
  repeat match type of H with
         | (if ?b then _ else _) = _ =>
             let Hb := fresh "Hb" in
             destruct b eqn:Hb;
             [apply andb_prop in Hb as [Hb _]; apply N.leb_le in Hb|]
         end; inversion H; subst; lia.
Qed.

Lemma leadingDigits_nonneg (R : Z) (s : jsstring) :
  Forall (fun d => 0 <= d) (leadingDigits R s).
Proof.
  induction s as [|c s IH]; simpl; [constructor|].
  unfold radixDigit. destruct (digitValue c) as [d|] eqn:Hd; [|constructor].
  destruct (d <? R); constructor;
    [eapply digitValue_nonneg; eassumption|exact IH].
Qed.

Lemma fold_radix_nonneg (R : Z) (ds : list Z) : forall acc,
  0 <= R -> 0 <= acc -> Forall (fun d => 0 <= d) ds ->
  0 <= fold_left (fun acc d => acc * R + d) ds acc.
Proof.
  induction ds as [|d ds IH]; intros acc HR Hacc Hds; simpl; [exact Hacc|].
  inversion Hds; subst. apply IH; [assumption|nia|assumption].
Qed.

Lemma parseInteger_nonneg (v : jsstring) (sign : bool) (m : Z) :
  parseInteger v = Some (sign, m) -> 0 <= m.
Proof.
  unfold parseInteger.
  set (s := match trimStart v with
            | 45%N :: s' => s' | 43%N :: s' => s' | _ => trimStart v end).
  set (Rs := match s with
             | 48%N :: 120%N :: s' => (16, s')
             | 48%N :: 88%N :: s' => (16, s')
             | _ => (10, s) end).
  assert (HR : 0 <= fst Rs).
  { unfold Rs. repeat (match goal with
                       | |- context [match ?x with _ => _ end] => destruct x
                       end; simpl; try lia). }
  destruct Rs as [R s']. simpl in HR.
  destruct (leadingDigits R s') as [|d ds] eqn:Hds; [discriminate|].
  intros H. inversion H; subst.
  apply fold_radix_nonneg; [assumption|lia|].
  rewrite <- Hds. apply leadingDigits_nonneg.
Qed.

(** The range check of the handler, a comparison of binary64 values,
    decides the range of the integer read. *)
Lemma range_check_parseInt (v : jsstring) :
  geq (parseInt v) (ofZ 0) && leq (parseInt v) (ofZ 5) = parsesInRange v.
Proof.
  unfold parseInt, parsesInRange.
  destruct (parseInteger v) as [[sign m]|] eqn:Hp; [|reflexivity].
  pose proof (parseInteger_nonneg _ _ _ Hp) as Hm.
  destruct (Z.eqb_spec m 0) as [->|Hne].
  - destruct sign; reflexivity.
  - unfold signed; simpl fst; simpl snd.
    destruct m as [|p|p]; try lia.
    destruct sign.
    + change (- Z.pos p) with (Z.neg p). rewrite Rounding.ofZ_negative.
      reflexivity.
    + destruct (Z_le_gt_dec (Z.pos p) 5) as [Hle|Hgt].
      * rewrite Rounding.ofZ_in_range by lia. symmetry.
        apply andb_true_intro. split; [apply Z.leb_le|apply Z.leb_le]; lia.
      * rewrite Rounding.ofZ_above_5 by lia. rewrite andb_false_r. symmetry.
        apply andb_false_intro2. apply Z.leb_gt. lia.
Qed.

(** In range, [parseInt] returns the integer read, exactly: one of
    [0], [1], ..., [5], or [-0] after a minus sign. *)
Lemma parseInt_in_range (v : jsstring) :
  parsesInRange v = true ->
  exists k, 0 <= k <= 5 /\
            (parseInt v = ofZ k \/ (k = 0 /\ parseInt v = negZero)).
Proof.
  unfold parsesInRange, parseInt.
  destruct (parseInteger v) as [[sign m]|] eqn:Hp; [|discriminate].
  pose proof (parseInteger_nonneg _ _ _ Hp) as Hm.
  intros [H0 H5]%andb_prop. apply Z.leb_le in H0, H5.
  unfold signed in *; simpl fst in *; simpl snd in *.
  destruct (Z.eqb_spec m 0) as [->|Hne].
  - exists 0. split; [lia|]. destruct sign; [right|left]; auto.
  - destruct sign; [lia|]. exists m. split; [lia|]. left. reflexivity.
Qed.

(** [parseInt] returns NaN exactly when no digit can be read. *)
Lemma parseInt_NaN_iff (v : jsstring) :
  parseInt v = NaN <-> parseInteger v = None.
Proof.
  unfold parseInt. split.
  - destruct (parseInteger v) as [[sign m]|]; [|reflexivity].
    destruct (m =? 0); [destruct sign; discriminate|].
    unfold signed, ofZ; simpl fst; simpl snd.
    destruct sign, m as [|p|p]; simpl; try discriminate;
      match goal with
      | |- binary_round _ _ ?s ?p 0 = _ -> _ =>
          destruct (Rounding.binary_round_shape s p) as [H|(m' & e' & H & _)];
          rewrite H; discriminate
      end.
  - intros ->. reflexivity.
Qed.

End ParseIntFacts.

(** ** The validated numeric input *)

Module NumberFormFacts.
Import JS DOM NumberForm Vocabulary ParseIntFacts.
Local Open Scope Z_scope.

Lemma handleNumberChange_cases (e : Event) :
  handleNumberChange e =
  if parsesInRange (value (target e))
  then [setNumber (parseInt (value (target e))); setIsInvalidNumber None]
  else [setIsInvalidNumber
          (Some (NumberToString (parseInt (value (target e)))
                 ++ str " is not a valid number!"))].
Proof.
  unfold handleNumberChange. rewrite range_check_parseInt. reflexivity.
Qed.

Lemma storedInRange_check (n : Number) :
  storedInRange n -> geq n (ofZ 0) && leq n (ofZ 5) = true.
Proof.
  intros (k & Hk & [->|[-> ->]]); [|reflexivity].
  assert (H : k = 0 \/ 1 <= k <= 5) by lia.
  destruct H as [->|H]; [reflexivity|]. apply Rounding.ofZ_in_range, H.
Qed.

(** C1.  A change of the numeric input is accepted, that is
    [handleNumberChange] calls [setNumber], exactly when the integer
    [parseInt] reads from the input's text lies in [0, 5]; otherwise its
    only call sets the message.  When accepted, the committed state holds
    exactly [parseInt] of the text as [number], which is then one of the
    integers 0 to 5, and [null] as message.  When no integer can be read,
    [parseInt] is NaN and the change is rejected. *)
Theorem number_change_accepted_iff_parsed_in_range (e : Event) (st : State) :
  let v := value (target e) in
  (parsesInRange v = true <->
   handleNumberChange e = [setNumber (parseInt v); setIsInvalidNumber None])
  /\ (parsesInRange v = false <->
      exists message,
        handleNumberChange e = [setIsInvalidNumber (Some message)])
  /\ (parsesInRange v = true ->
      commit st (handleNumberChange e)
      = {| number := parseInt v; isInvalidNumber := None |}
      /\ storedInRange (parseInt v))
  /\ (parseInteger v = None ->
      parseInt v = NaN /\ parsesInRange v = false).
Proof.
  intros v. pose proof (handleNumberChange_cases e) as Hc. fold v in Hc.
  split; [|split; [|split]].
  - split.
    + intros H. rewrite Hc, H. reflexivity.
    + intros H. rewrite Hc in H.
      destruct (parsesInRange v); [reflexivity|discriminate].
  - split.
    + intros H. rewrite Hc, H. eexists. reflexivity.
    + intros [message H]. rewrite Hc in H.
      destruct (parsesInRange v); [discriminate|reflexivity].
  - intros H. split; [rewrite Hc, H; reflexivity|].
    apply parseInt_in_range, H.
  - intros H. split; [apply parseInt_NaN_iff, H|].
    unfold parsesInRange. rewrite H. reflexivity.
Qed.

(** Typing [5] into the field showing [0] stores [5] and no message. *)
Lemma number_change_accepted_at_5 :
  parsesInRange (str "5") = true /\
  commit initial (handleNumberChange (numberInput "5"))
  = {| number := ofZ 5; isInvalidNumber := None |}.
Proof.
  split; [reflexivity|].
  destruct (number_change_accepted_iff_parsed_in_range
              (numberInput "5") initial)
    as (_ & _ & Hstored & _).
  exact (proj1 (Hstored eq_refl)).
Defined.

(** C2.  When the text of the numeric input does not parse to an integer
    in [0, 5], the change leaves [number] as it was, leaves the text fields
    of [Parent] as they were, and records the message made of the parsed
    Number, converted to a String, followed by [" is not a valid number!"];
    this message is not empty. *)
Theorem rejected_number_change_keeps_state (st : App.State) (e : Event) :
  parsesInRange (value (target e)) = false ->
  let st' := App.dispatch st (App.NumberInput e) in
  number (App.form st') = number (App.form st)
  /\ App.parent st' = App.parent st
  /\ isInvalidNumber (App.form st')
     = Some (NumberToString (parseInt (value (target e)))
             ++ str " is not a valid number!")
  /\ isInvalidNumber (App.form st') <> Some []
  /\ isInvalidNumber (App.form st') <> None.
Proof.
  intros H st'. unfold st', App.dispatch. simpl App.form. simpl App.parent.
  rewrite handleNumberChange_cases, H. simpl.
  repeat split; try discriminate.
  intros Heq. inversion Heq as [Hnil].
  apply (f_equal (@List.length N)) in Hnil. rewrite length_app in Hnil.
  simpl in Hnil. lia.
Qed.

(** Typing [9] is rejected: the state keeps its number and the message
    reads "9 is not a valid number!". *)
Lemma rejected_number_change_at_9 :
  let st' := App.dispatch App.initial (App.NumberInput (numberInput "9")) in
  parsesInRange (str "9") = false
  /\ number (App.form st') = ofZ 0
  /\ App.parent st' = Parent.initial
  /\ isInvalidNumber (App.form st') = Some (str "9 is not a valid number!").
Proof.
  intros st'.
  destruct (rejected_number_change_keeps_state
              App.initial (numberInput "9") eq_refl)
    as (Hn & Hp & Hm & _).
  split; [reflexivity|]. split; [exact Hn|]. split; [exact Hp|].
  fold st' in Hm. rewrite Hm. vm_compute. reflexivity.
Defined.

(** Every committed change keeps the stored number in range and is one of
    the two transitions. *)
Lemma number_change_step (st : State) (e : Event) :
  storedInRange (number st) ->
  let st' := commit st (handleNumberChange e) in
  storedInRange (number st')
  /\ ((isInvalidNumber st' = None
       /\ number st' = parseInt (value (target e)))
      \/ (exists message,
            isInvalidNumber st' = Some message /\ message <> []
            /\ number st' = number st)).
Proof.
  intros Hst st'. unfold st'. rewrite handleNumberChange_cases.
  destruct (parsesInRange (value (target e))) eqn:Hr; simpl.
  - split; [apply parseInt_in_range, Hr|]. left. split; reflexivity.
  - split; [exact Hst|]. right. eexists. split; [reflexivity|].
    split; [|reflexivity].
    intros Hnil. apply (f_equal (@List.length N)) in Hnil.
    rewrite length_app in Hnil. simpl in Hnil. lia.
Qed.

Lemma run_keeps_number_in_range (inputs : list App.Input) : forall st,
  storedInRange (number (App.form st)) ->
  storedInRange (number (App.form (App.run inputs st))).
Proof.
  induction inputs as [|i inputs IH]; intros st Hst; simpl; [exact Hst|].
  apply IH. destruct i as [e|e|e]; simpl; try exact Hst.
  apply number_change_step, Hst.
Qed.

(** C5.  The numeric field starts as [0] without a message.  After every
    sequence of change events on the three inputs the stored number is one
    of the integers of [0, 5] and passes the handler's own range check.
    Every change of the numeric input, from a state whose number is in
    range, either clears the message and stores the parsed number (Valid),
    or sets a non-empty message and keeps the number it had (Invalid); in
    both cases the number stays in range. *)
Theorem number_field_state_machine :
  (number initial = ofZ 0 /\ isInvalidNumber initial = None)
  /\ (forall inputs : list App.Input,
        let st := App.form (App.run inputs App.initial) in
        storedInRange (number st)
        /\ geq (number st) (ofZ 0) && leq (number st) (ofZ 5) = true)
  /\ (forall (st : State) (e : Event),
        storedInRange (number st) ->
        let st' := commit st (handleNumberChange e) in
        storedInRange (number st')
        /\ ((isInvalidNumber st' = None
             /\ number st' = parseInt (value (target e)))
            \/ (exists message,
                  isInvalidNumber st' = Some message /\ message <> []
                  /\ number st' = number st))).
Proof.
  assert (H0 : storedInRange (number (App.form App.initial))).
  { exists 0. split; [lia|]. left. reflexivity. }
  split; [split; reflexivity|]. split.
  - intros inputs st.
    pose proof (run_keeps_number_in_range inputs App.initial H0) as H.
    split; [exact H|]. apply storedInRange_check, H.
  - intros st e Hst. apply number_change_step, Hst.
Qed.

(** From the initial state, [5] moves to Valid(5) and then [9] to Invalid,
    the number still [5]. *)
Lemma number_field_valid_then_invalid :
  let st1 := commit initial (handleNumberChange (numberInput "5")) in
  let st2 := commit st1 (handleNumberChange (numberInput "9")) in
  storedInRange (number initial)
  /\ st1 = {| number := ofZ 5; isInvalidNumber := None |}
  /\ st2 = {| number := ofZ 5;
              isInvalidNumber := Some (str "9 is not a valid number!") |}
  /\ storedInRange (number st2).
Proof.
  intros st1 st2.
  assert (H0 : storedInRange (number initial)).
  { exists 0. split; [lia|]. left. reflexivity. }
  destruct number_field_state_machine as (_ & _ & Hstep).
  destruct (Hstep initial (numberInput "5") H0) as [H1 _]. fold st1 in H1.
  destruct (Hstep st1 (numberInput "9") H1) as [H2 _]. fold st2 in H2.
  split; [exact H0|]. split; [vm_compute; reflexivity|].
  split; [vm_compute; reflexivity|exact H2].
Defined.

(** C10.  Whenever [parseInt] of the input's text is NaN, the handler's
    only call records the message "NaN is not a valid number!": the parsed
    value is interpolated, and nothing of the text that was typed. *)
Theorem unparsable_number_message_is_NaN (e : Event) :
  parseInt (value (target e)) = NaN ->
  handleNumberChange e
  = [setIsInvalidNumber (Some (str "NaN is not a valid number!"))].
Proof.
  intros H. unfold handleNumberChange. rewrite H. reflexivity.
Qed.

Lemma unparsable_number_message_at_abc :
  parseInt (str "abc") = NaN
  /\ handleNumberChange (numberInput "abc")
     = [setIsInvalidNumber (Some (str "NaN is not a valid number!"))].
Proof.
  split; [reflexivity|].
  exact (unparsable_number_message_is_NaN (numberInput "abc") eq_refl).
Defined.

End NumberFormFacts.

(** ** The generic [handleChange] *)

Module ControlledFormFacts.
Import JS DOM ControlledForm Vocabulary.

Lemma onChange_insert (formData : Object) (event : Event) :
  onChange formData event
  = <[name (target event) := inputValue event]> formData.
Proof. reflexivity. Qed.

Lemma onChange_dom (formData : Object) (event : Event) :
  is_Some (formData !! name (target event)) ->
  dom (onChange formData event) = dom formData.
Proof.
  intros Hin. rewrite onChange_insert. apply dom_insert_lookup_L, Hin.
Qed.

Lemma run_app (before after : list Event) (formData : Object) :
  run (before ++ after) formData = run after (run before formData).
Proof. unfold run. apply fold_left_app. Qed.

Lemma run_untouched (k : list N) (events : list Event) :
  forall formData : Object,
  Forall (fun ev => name (target ev) <> k) events ->
  run events formData !! k = formData !! k.
Proof.
  induction events as [|ev events IH]; intros formData Hne; [reflexivity|].
  inversion Hne as [|? ? Hev Hrest]; subst.
  change (run (ev :: events) formData) with (run events (onChange formData ev)).
  rewrite IH by assumption.
  rewrite onChange_insert. apply lookup_insert_ne. assumption.
Qed.

Lemma run_dom (events : list Event) :
  forall formData : Object,
  Forall (fun ev => is_Some (formData !! name (target ev))) events ->
  dom (run events formData) = dom formData.
Proof.
  induction events as [|ev events IH]; intros formData Hin; [reflexivity|].
  inversion Hin as [|? ? Hev Hrest]; subst.
  change (run (ev :: events) formData) with (run events (onChange formData ev)).
  rewrite IH.
  - apply onChange_dom, Hev.
  - eapply Forall_impl; [exact Hrest|]. intros ev' Hev'. simpl in Hev'.
    apply elem_of_dom. rewrite onChange_dom by exact Hev.
    apply elem_of_dom, Hev'.
Qed.

(** C3.  After any sequence of change events whose names are keys of the
    form data, each one handled by the handler of the render that follows
    its predecessor's commit, the keys are the same as before; the entry of
    a name holds the value of the last event that carried this name; and a
    key that no event carried holds the value it had. *)
Theorem changes_keep_last_value_per_key
    (formData : Object) (events : list Event) :
  Forall (fun ev => is_Some (formData !! name (target ev))) events ->
  let final := run events formData in
  dom final = dom formData
  /\ (forall before ev after,
        events = before ++ ev :: after ->
        Forall (fun ev' => name (target ev') <> name (target ev)) after ->
        final !! name (target ev) = Some (inputValue ev))
  /\ (forall k,
        Forall (fun ev => name (target ev) <> k) events ->
        final !! k = formData !! k).
Proof.
  intros Hin final. unfold final. split; [apply run_dom, Hin|]. split.
  - intros before ev after Hsplit Hlast. subst events.
    rewrite run_app.
    change (run (ev :: after) (run before formData))
      with (run after (onChange (run before formData) ev)).
    rewrite run_untouched by assumption.
    rewrite onChange_insert. apply lookup_insert_eq.
  - intros k Hk. apply run_untouched, Hk.
Qed.

(** Three changes of the initial form: [firstName] twice, [admin] once;
    [lastName] is never written. *)
Lemma changes_keep_last_value_example :
  let events := [textInput "firstName" "Johns";
                 checkboxInput "admin" true;
                 textInput "firstName" "Jo"] in
  let final := run events initial in
  Forall (fun ev => is_Some (initial !! name (target ev))) events
  /\ final !! str "firstName" = Some (Str (str "Jo"))
  /\ final !! str "admin" = Some (Bool true)
  /\ final !! str "lastName" = Some (Str (str "Henry")).
Proof.
  intros events final.
  assert (Hin : Forall (fun ev => is_Some (initial !! name (target ev)))
                       events).
  { repeat constructor; eexists; vm_compute; reflexivity. }
  destruct (changes_keep_last_value_per_key initial events Hin)
    as (_ & Hlast & Hkeep).
  split; [exact Hin|]. split; [|split].
  - exact (Hlast [textInput "firstName" "Johns"; checkboxInput "admin" true]
                 (textInput "firstName" "Jo") [] eq_refl (List.Forall_nil _)).
  - refine (Hlast [textInput "firstName" "Johns"]
                  (checkboxInput "admin" true)
                  [textInput "firstName" "Jo"] eq_refl _).
    repeat constructor. vm_compute. discriminate.
  - unfold final. rewrite (Hkeep (str "lastName")); [vm_compute; reflexivity|].
    repeat constructor; vm_compute; discriminate.
Defined.

(** C4.  One change event whose name is a key of the form data replaces
    the entry of that name, by the [checked] flag when the input is a
    checkbox and by the [value] string otherwise, and leaves every other
    entry, and the set of keys, as they were. *)
Theorem change_replaces_exactly_one_entry
    (formData : Object) (event : Event) :
  is_Some (formData !! name (target event)) ->
  let formData' := onChange formData event in
  (type (target event) = str "checkbox" ->
   formData' !! name (target event) = Some (Bool (checked (target event))))
  /\ (type (target event) <> str "checkbox" ->
      formData' !! name (target event) = Some (Str (value (target event))))
  /\ (forall k, k <> name (target event) -> formData' !! k = formData !! k)
  /\ dom formData' = dom formData.
Proof.
  intros Hin formData'. unfold formData'. rewrite onChange_insert.
  repeat split.
  - intros Hbox. rewrite lookup_insert_eq. unfold inputValue.
    rewrite bool_decide_eq_true_2 by assumption. reflexivity.
  - intros Htext. rewrite lookup_insert_eq. unfold inputValue.
    rewrite bool_decide_eq_false_2 by assumption. reflexivity.
  - intros k Hk. apply lookup_insert_ne. congruence.
  - rewrite <- onChange_insert. apply onChange_dom, Hin.
Qed.

(** Ticking the [admin] checkbox of the initial form: [admin] becomes
    [true], the two names stay. *)
Lemma change_admin_checkbox_example :
  let formData' := onChange initial (checkboxInput "admin" true) in
  is_Some (initial !! str "admin")
  /\ formData' !! str "admin" = Some (Bool true)
  /\ formData' !! str "firstName" = Some (Str (str "John"))
  /\ formData' !! str "lastName" = Some (Str (str "Henry")).
Proof.
  intros formData'.
  assert (Hin : is_Some (initial !! name (target (checkboxInput "admin" true))))
    by (eexists; vm_compute; reflexivity).
  destruct (change_replaces_exactly_one_entry initial
              (checkboxInput "admin" true) Hin) as (Hbox & _ & Hother & _).
  split; [exact Hin|]. split; [exact (Hbox eq_refl)|]. unfold formData'. split.
  - rewrite (Hother (str "firstName")); [vm_compute; reflexivity|].
    vm_compute; discriminate.
  - rewrite (Hother (str "lastName")); [vm_compute; reflexivity|].
    vm_compute; discriminate.
Defined.

(** C8.  Handling the same change event twice gives the form data that
    handling it once gives, whether React renders between the two calls
    (the second handler sees the first one's result) or not (both calls
    come from the handler of one render).  The name need not be a key. *)
Theorem change_is_idempotent (formData : Object) (event : Event) :
  onChange (onChange formData event) event = onChange formData event
  /\ commit formData
       (handleChange formData event ++ handleChange formData event)
     = onChange formData event.
Proof.
  split; [|reflexivity].
  rewrite !onChange_insert. apply insert_insert_eq.
Qed.

(** Two calls of the handler of one render do not add up: both spread
    the same [formData], and the second [setFormData] replaces what the
    first one queued. *)
Lemma changes_of_one_render_keep_the_last
    (formData : Object) (e1 e2 : Event) :
  commit formData (handleChange formData e1 ++ handleChange formData e2)
  = onChange formData e2.
Proof. reflexivity. Qed.

(** C9.  A change event whose name is no key of the form data is handled
    like any other: the handler makes its one [setFormData] call, and the
    committed form data has one entry more, the new name with the event's
    value; the entries it had are unchanged. *)
Theorem change_of_unknown_name_inserts
    (formData : Object) (event : Event) :
  formData !! name (target event) = None ->
  let formData' := onChange formData event in
  handleChange formData event = [setFormData formData']
  /\ formData' !! name (target event) = Some (inputValue event)
  /\ (forall k, k <> name (target event) -> formData' !! k = formData !! k)
  /\ dom formData' = {[name (target event)]} ∪ dom formData
  /\ size formData' = S (size formData).
Proof.
  intros Hnew formData'. unfold formData'. split; [reflexivity|].
  rewrite onChange_insert. repeat split.
  - apply lookup_insert_eq.
  - intros k Hk. apply lookup_insert_ne. congruence.
  - apply dom_insert_L.
  - apply map_size_insert_None, Hnew.
Qed.

(** A change event named [email] on the initial form adds that key. *)
Lemma change_of_unknown_name_example :
  let formData' := onChange initial (textInput "email" "j@h") in
  initial !! str "email" = None
  /\ formData' !! str "email" = Some (Str (str "j@h"))
  /\ formData' !! str "firstName" = Some (Str (str "John"))
  /\ size formData' = 4.
Proof.
  intros formData'.
  assert (Hnew : initial !! name (target (textInput "email" "j@h")) = None)
    by (vm_compute; reflexivity).
  destruct (change_of_unknown_name_inserts
              initial (textInput "email" "j@h") Hnew)
    as (_ & Hname & Hother & _ & Hsize).
  split; [exact Hnew|]. split; [exact Hname|]. unfold formData'. split.
  - rewrite (Hother (str "firstName")); [vm_compute; reflexivity|].
    vm_compute; discriminate.
  - rewrite Hsize. vm_compute. reflexivity.
Defined.

End ControlledFormFacts.

(** ** Submitting to a callback *)

Module SubmitFormFacts.
Import JS DOM SubmitForm Vocabulary.

(** C7.  For a component whose [firstName] and [lastName] hold [a] and
    [b], the submit handler makes four calls in this order: it prevents
    the default action, calls the callback with the object
    [{firstName: a, lastName: b}] and nothing else, then sets [firstName]
    and [lastName] to the empty string.  After the commit these two hold
    the empty string and every other state variable holds what it held. *)
Theorem submit_sends_snapshot_then_resets (cells : Cells) (a b : Value) :
  cells !! str "firstName" = Some a ->
  cells !! str "lastName" = Some b ->
  exists calls,
    onSubmit cells = Some calls
    /\ calls = [preventDefault;
                sendFormDataSomewhere
                  {[ str "firstName" := a; str "lastName" := b ]};
                setFirstName []; setLastName []]
    /\ received calls = [ {[ str "firstName" := a; str "lastName" := b ]} ]
    /\ commit cells calls !! str "firstName" = Some (Str [])
    /\ commit cells calls !! str "lastName" = Some (Str [])
    /\ (forall k, k <> str "firstName" -> k <> str "lastName" ->
                  commit cells calls !! k = cells !! k).
Proof.
  intros Ha Hb. eexists. unfold onSubmit. rewrite Ha, Hb.
  split; [reflexivity|]. split; [reflexivity|]. split; [reflexivity|].
  unfold handleSubmit, commit. simpl fold_left.
  split; [|split].
  - rewrite lookup_insert_ne by (vm_compute; discriminate).
    apply lookup_insert_eq.
  - apply lookup_insert_eq.
  - intros k Hk1 Hk2. rewrite !lookup_insert_ne by congruence. reflexivity.
Qed.

(** Submitting [{firstName: "A", lastName: "B", admin: false}]. *)
Lemma submit_A_B_example :
  let cells : Cells := {[ str "firstName" := Str (str "A");
                          str "lastName" := Str (str "B");
                          str "admin" := Bool false ]} in
  exists calls,
    onSubmit cells = Some calls
    /\ received calls = [ {[ str "firstName" := Str (str "A");
                             str "lastName" := Str (str "B") ]} ]
    /\ commit cells calls !! str "firstName" = Some (Str [])
    /\ commit cells calls !! str "lastName" = Some (Str [])
    /\ commit cells calls !! str "admin" = Some (Bool false).
Proof.
  intros cells.
  destruct (submit_sends_snapshot_then_resets cells
              (Str (str "A")) (Str (str "B")) eq_refl eq_refl)
    as (calls & Hcalls & _ & Hsent & Hfirst & Hlast & Hother).
  exists calls. split; [exact Hcalls|]. split; [exact Hsent|].
  split; [exact Hfirst|]. split; [exact Hlast|].
  rewrite (Hother (str "admin")) by (vm_compute; discriminate).
  vm_compute. reflexivity.
Defined.

End SubmitFormFacts.

(** ** The list of submissions *)

Module SubmissionListFacts.
Import JS DOM SubmissionList Vocabulary.

Lemma alloc_keeps (o o' : HeapObject) (h : Heap) (l : loc) :
  h !! l = Some o -> snd (alloc o' h) !! l = Some o.
Proof. intros H. simpl. apply lookup_app_l_Some, H. Qed.

Lemma alloc_fresh (o : HeapObject) (h : Heap) :
  h !! fst (alloc o h) = None /\ snd (alloc o h) !! fst (alloc o h) = Some o.
Proof.
  simpl. split.
  - apply lookup_ge_None. lia.
  - apply list_lookup_middle. reflexivity.
Qed.

(** What one submission does to a state whose [submittedData] is an array. *)
Lemma submit_step (st : State) (h : Heap) (elems : list loc) :
  h !! submittedData st = Some (HArray elems) ->
  exists st1 h1 r,
    dispatch (st, h) Submit = Some (st1, h1)
    /\ firstName st1 = [] /\ lastName st1 = []
    /\ h !! r = None
    /\ h1 !! r = Some (snapshot (firstName st) (lastName st))
    /\ h1 !! submittedData st1 = Some (HArray (elems ++ [r]))
    /\ (forall l o, h !! l = Some o -> h1 !! l = Some o).
Proof.
  intros Harr. unfold dispatch, handleSubmit.
  set (o := HObject _).
  destruct (alloc_fresh o h) as [Hnone Hnew].
  assert (Hold : snd (alloc o h) !! submittedData st = Some (HArray elems))
    by (apply alloc_keeps, Harr).
  destruct (alloc o h) as [formData h0] eqn:Ha. simpl in Hnone, Hnew, Hold.
  rewrite Hold.
  set (arr := HArray (elems ++ [formData])).
  destruct (alloc_fresh arr h0) as [_ Harr'].
  pose proof (alloc_keeps _ arr _ _ Hnew) as Hnew'.
  destruct (alloc arr h0) as [dataArray h1] eqn:Hb. simpl in Harr', Hnew'.
  eexists _, h1, formData. split; [reflexivity|]. simpl.
  repeat split; try assumption.
  intros l o' Hl.
  pose proof (alloc_keeps _ o _ _ Hl) as H1. rewrite Ha in H1. simpl in H1.
  pose proof (alloc_keeps _ arr _ _ H1) as H2. rewrite Hb in H2. exact H2.
Qed.

(** Every event succeeds on such a state, keeps every object of the heap
    and at most appends to the array. *)
Lemma dispatch_extends
    (st : State) (h : Heap) (elems : list loc) (i : Input) :
  h !! submittedData st = Some (HArray elems) ->
  exists st' h' more,
    dispatch (st, h) i = Some (st', h')
    /\ h' !! submittedData st' = Some (HArray (elems ++ more))
    /\ (forall l o, h !! l = Some o -> h' !! l = Some o).
Proof.
  intros Harr. destruct i as [event|event|].
  - eexists _, h, []. split; [reflexivity|]. rewrite app_nil_r. simpl. auto.
  - eexists _, h, []. split; [reflexivity|]. rewrite app_nil_r. simpl. auto.
  - destruct (submit_step st h elems Harr)
      as (st1 & h1 & r & Hd & _ & _ & _ & _ & Harr1 & Hkeep).
    exists st1, h1, [r]. auto.
Qed.

Lemma run_extends (inputs : list Input) :
  forall (st : State) (h : Heap) (elems : list loc),
  h !! submittedData st = Some (HArray elems) ->
  exists st' h' more,
    run inputs (st, h) = Some (st', h')
    /\ h' !! submittedData st' = Some (HArray (elems ++ more))
    /\ (forall l o, h !! l = Some o -> h' !! l = Some o).
Proof.
  induction inputs as [|i inputs IH]; intros st h elems Harr.
  - exists st, h, []. rewrite app_nil_r. simpl. auto.
  - destruct (dispatch_extends st h elems i Harr)
      as (st1 & h1 & more1 & Hd & Harr1 & Hkeep1).
    destruct (IH st1 h1 (elems ++ more1) Harr1)
      as (st2 & h2 & more2 & Hr & Harr2 & Hkeep2).
    exists st2, h2, (more1 ++ more2).
    change (run (i :: inputs) (st, h))
      with (match dispatch (st, h) i with
            | Some s' => run inputs s'
            | None => None
            end).
    rewrite Hd.
    split; [exact Hr|]. rewrite app_assoc. split; [exact Harr2|].
    intros l o Hl. apply Hkeep2, Hkeep1, Hl.
Qed.

(** Whatever events the initial form receives, they all succeed and
    [submittedData] is an array. *)
Lemma reachable_has_array (inputs : list Input) :
  exists st h elems,
    run inputs initial = Some (st, h)
    /\ h !! submittedData st = Some (HArray elems).
Proof.
  destruct (run_extends inputs (fst initial) (snd initial) [] eq_refl)
    as (st & h & more & Hrun & Harr & _).
  exists st, h, more. split; [exact Hrun|exact Harr].
Qed.

(** C6.  On a form whose [submittedData] is an array, submitting succeeds
    and appends to the array a newly allocated object (its address was
    free before) that holds [firstName] and [lastName] as they were when
    the event was dispatched, although the committed state holds the empty
    string for both.  No object of the heap changes.  Whatever events
    follow, they all succeed, the object still holds the same two values
    and still sits at the same place of the array. *)
Theorem submitted_snapshot_is_stable
    (st : State) (h : Heap) (elems : list loc) :
  h !! submittedData st = Some (HArray elems) ->
  exists st1 h1 r,
    dispatch (st, h) Submit = Some (st1, h1)
    /\ firstName st1 = [] /\ lastName st1 = []
    /\ h !! r = None
    /\ h1 !! r = Some (snapshot (firstName st) (lastName st))
    /\ h1 !! submittedData st1 = Some (HArray (elems ++ [r]))
    /\ (forall l o, h !! l = Some o -> h1 !! l = Some o)
    /\ (forall inputs, exists st2 h2 more,
          run inputs (st1, h1) = Some (st2, h2)
          /\ h2 !! r = Some (snapshot (firstName st) (lastName st))
          /\ h2 !! submittedData st2 = Some (HArray (elems ++ [r] ++ more))).
Proof.
  intros Harr.
  destruct (submit_step st h elems Harr)
    as (st1 & h1 & r & Hd & Hf & Hl & Hfree & Hsnap & Harr1 & Hkeep).
  exists st1, h1, r. repeat (split; [assumption|]).
  intros inputs.
  destruct (run_extends inputs st1 h1 (elems ++ [r]) Harr1)
    as (st2 & h2 & more & Hr & Harr2 & Hkeep2).
  exists st2, h2, more. split; [exact Hr|]. split; [apply Hkeep2, Hsnap|].
  rewrite app_assoc. exact Harr2.
Qed.

(** Submitting the initial form, then typing a new first name and
    submitting again: the first submission still reads John Henry. *)
Lemma submitted_snapshot_example :
  let later := [FirstNameInput (textInput "" "Ann"); Submit] in
  snd initial !! submittedData (fst initial) = Some (HArray [])
  /\ exists st1 h1 r st2 h2 more,
       dispatch initial Submit = Some (st1, h1)
       /\ h1 !! r = Some (snapshot (str "John") (str "Henry"))
       /\ run later (st1, h1) = Some (st2, h2)
       /\ h2 !! r = Some (snapshot (str "John") (str "Henry"))
       /\ h2 !! submittedData st2 = Some (HArray ([] ++ [r] ++ more)).
Proof.
  intros later. split; [reflexivity|].
  destruct (submitted_snapshot_is_stable (fst initial) (snd initial) [] eq_refl)
    as (st1 & h1 & r & Hd & _ & _ & _ & Hsnap & _ & _ & Hlater).
  destruct (Hlater later) as (st2 & h2 & more & Hr & Hsnap2 & Harr2).
  exists st1, h1, r, st2, h2, more. auto.
Defined.

End SubmissionListFacts.

(** * Further properties of the handlers *)

(** ** Order of changes, and the earlier versions of [handleChange] *)

Module ChangeOrderFacts.
Import JS DOM ControlledForm Vocabulary Observations.



(** X2.  When the handler of one render handles two change events of
    different names, the commit holds the second change only: the entry of
    the first name is what it was before both.  Unless the first change
    wrote what its entry already held, the result differs from handling
    the two events with a render in between. *)
Theorem change_in_same_render_is_lost
    (formData : Object) (e1 e2 : Event) :
  name (target e1) <> name (target e2) ->
  let formData' :=
    commit formData (handleChange formData e1 ++ handleChange formData e2) in
  formData' !! name (target e2) = Some (inputValue e2)
  /\ formData' !! name (target e1) = formData !! name (target e1)
  /\ (formData !! name (target e1) <> Some (inputValue e1) ->
      formData' <> onChange (onChange formData e1) e2).
Proof.
  intros Hne formData'.
  assert (Heq : formData' = <[name (target e2) := inputValue e2]> formData)
    by reflexivity.
  rewrite Heq. split; [apply lookup_insert_eq|].
  split; [apply lookup_insert_ne; congruence|].
  intros Hold Hsame.
  apply (f_equal (fun m : Object => m !! name (target e1))) in Hsame.
  rewrite !ControlledFormFacts.onChange_insert in Hsame.
  rewrite !lookup_insert_ne in Hsame by congruence.
  rewrite lookup_insert_eq in Hsame. contradiction.
Qed.

Lemma change_in_same_render_is_lost_example :
  let e1 := textInput "firstName" "Ann" in
  let e2 := textInput "lastName" "Lee" in
  let formData' :=
    commit initial (handleChange initial e1 ++ handleChange initial e2) in
  name (target e1) <> name (target e2)
  /\ formData' !! str "lastName" = Some (Str (str "Lee"))
  /\ formData' !! str "firstName" = Some (Str (str "John"))
  /\ formData' <> onChange (onChange initial e1) e2.
Proof.
  intros e1 e2 formData'.
  assert (Hne : name (target e1) <> name (target e2))
    by (vm_compute; discriminate).
  destruct (change_in_same_render_is_lost initial e1 e2 Hne)
    as (Hsecond & Hfirst & Hdiffers).
  split; [exact Hne|]. split; [exact Hsecond|]. split.
  - unfold formData'. change (str "firstName") with (name (target e1)).
    rewrite Hfirst. vm_compute. reflexivity.
  - apply Hdiffers. vm_compute. discriminate.
Defined.

(** X3.  The README's first [handleChange] stores the [value] string of
    whatever input fired, so for a checkbox it never records [checked]:
    ticking and unticking commit the same form data.  On any input that is
    no checkbox it commits what the final [handleChange] commits, and on an
    input named [firstName] or [lastName] it makes the call of the handler
    it replaced. *)
Theorem first_handleChange_stores_value_only
    (formData : Object) (event : Event) :
  let formData' := ObjectForm.commit formData
                     (ObjectForm.handleChange formData event) in
  formData' !! name (target event) = Some (Str (value (target event)))
  /\ (forall event',
        name (target event') = name (target event) ->
        value (target event') = value (target event) ->
        ObjectForm.commit formData (ObjectForm.handleChange formData event')
        = formData')
  /\ (type (target event) <> str "checkbox" ->
      formData' = onChange formData event)
  /\ (type (target event) = str "checkbox" ->
      onChange formData event !! name (target event)
      = Some (Bool (checked (target event)))
      /\ formData' <> onChange formData event)
  /\ (name (target event) = str "firstName" ->
      ObjectForm.handleFirstNameChange formData event
      = ObjectForm.handleChange formData event)
  /\ (name (target event) = str "lastName" ->
      ObjectForm.handleLastNameChange formData event
      = ObjectForm.handleChange formData event).
Proof.
  intros formData'.
  assert (Heq : formData'
                = <[name (target event) := Str (value (target event))]>
                    formData) by reflexivity.
  split; [rewrite Heq; apply lookup_insert_eq|].
  split.
  { intros event' Hname Hvalue. rewrite Heq.
    unfold ObjectForm.handleChange, ObjectForm.commit. simpl.
    rewrite Hname, Hvalue. reflexivity. }
  split.
  { intros Htext. rewrite Heq, ControlledFormFacts.onChange_insert.
    unfold inputValue. rewrite bool_decide_eq_false_2 by assumption.
    reflexivity. }
  split.
  { intros Hbox.
    assert (Hfinal : onChange formData event !! name (target event)
                     = Some (Bool (checked (target event)))).
    { rewrite ControlledFormFacts.onChange_insert, lookup_insert_eq.
      unfold inputValue. rewrite bool_decide_eq_true_2 by assumption.
      reflexivity. }
    split; [exact Hfinal|].
    intros Hsame.
    apply (f_equal (fun m : Object => m !! name (target event))) in Hsame.
    rewrite Hfinal, Heq, lookup_insert_eq in Hsame. discriminate. }
  split.
  - intros Hname. unfold ObjectForm.handleFirstNameChange,
      ObjectForm.handleChange. rewrite Hname. reflexivity.
  - intros Hname. unfold ObjectForm.handleLastNameChange,
      ObjectForm.handleChange. rewrite Hname. reflexivity.
Qed.

Lemma first_handleChange_on_checkbox_example :
  ObjectForm.commit initial
    (ObjectForm.handleChange initial (checkboxInput "admin" true))
  = ObjectForm.commit initial
      (ObjectForm.handleChange initial (checkboxInput "admin" false))
  /\ ObjectForm.commit initial
       (ObjectForm.handleChange initial (checkboxInput "admin" true))
     !! str "admin" = Some (Str (str "on")).
Proof.
  destruct (first_handleChange_stores_value_only initial
              (checkboxInput "admin" false)) as (_ & Hblind & _).
  destruct (first_handleChange_stores_value_only initial
              (checkboxInput "admin" true)) as (Hvalue & _).
  split; [exact (Hblind (checkboxInput "admin" true) eq_refl eq_refl)|].
  exact Hvalue.
Defined.

End ChangeOrderFacts.

(** ** One handler per field against one handler for all *)

Module RefactorFacts.
Import JS DOM Vocabulary Observations.

Lemma asFormData_step (st : NewsletterForm.State) (i : NewsletterForm.Input) :
  namedAfterState i = true ->
  ControlledForm.onChange (asFormData st) (eventOf i)
  = asFormData (NewsletterForm.dispatch st i).
Proof.
  intros Hnamed. rewrite ControlledFormFacts.onChange_insert.
  unfold inputValue, asFormData.
  destruct i as [event|event|event]; simpl in *;
    apply andb_prop in Hnamed as [Hname Htype];
    apply bool_decide_eq_true_1 in Hname; rewrite Hname.
  - apply negb_true_iff in Htype. rewrite Htype.
    apply insert_insert_eq.
  - apply negb_true_iff in Htype. rewrite Htype.
    rewrite insert_insert_ne by (vm_compute; discriminate).
    rewrite insert_insert_eq. reflexivity.
  - rewrite Htype.
    rewrite insert_insert_ne by (vm_compute; discriminate).
    rewrite (insert_insert_ne _ (str "newsLetter") (str "lastName"))
      by (vm_compute; discriminate).
    rewrite insert_singleton_eq. reflexivity.
Qed.

(** X4.  On inputs that carry the names of the state variables (and are
    checkboxes exactly where the state is a boolean), the one
    [handleChange] keyed by name does what the three handlers of the form
    with three state variables do: started from the form data holding the
    three variables, after any sequence of change events it is the form
    data holding the three variables as the three handlers left them. *)
Theorem handleChange_simulates_the_three_handlers
    (inputs : list NewsletterForm.Input) (st : NewsletterForm.State) :
  Forall (fun i => namedAfterState i = true) inputs ->
  ControlledForm.run (map eventOf inputs) (asFormData st)
  = asFormData (NewsletterForm.run inputs st).
Proof.
  revert st. induction inputs as [|i inputs IH]; intros st Hnamed;
    [reflexivity|].
  inversion Hnamed as [|? ? Hi Hrest]; subst.
  change (ControlledForm.run (map eventOf (i :: inputs)) (asFormData st))
    with (ControlledForm.run (map eventOf inputs)
            (ControlledForm.onChange (asFormData st) (eventOf i))).
  rewrite asFormData_step by exact Hi.
  apply IH, Hrest.
Qed.

Lemma handleChange_simulates_example :
  let inputs :=
    [NewsletterForm.FirstNameInput (textInput "firstName" "Ann");
     NewsletterForm.NewsLetterInput (checkboxInput "newsLetter" true);
     NewsletterForm.LastNameInput (textInput "lastName" "Lee");
     NewsletterForm.FirstNameInput (textInput "firstName" "Anna")] in
  Forall (fun i => namedAfterState i = true) inputs
  /\ NewsletterForm.run inputs NewsletterForm.initial
     = {| NewsletterForm.firstName := str "Anna";
          NewsletterForm.lastName := str "Lee";
          NewsletterForm.newsLetter := true |}
  /\ ControlledForm.run (map eventOf inputs)
       (asFormData NewsletterForm.initial)
     = asFormData {| NewsletterForm.firstName := str "Anna";
                     NewsletterForm.lastName := str "Lee";
                     NewsletterForm.newsLetter := true |}.
Proof.
  intros inputs.
  assert (Hnamed : Forall (fun i => namedAfterState i = true) inputs)
    by (repeat constructor).
  split; [exact Hnamed|]. split; [reflexivity|].
  exact (handleChange_simulates_the_three_handlers
           inputs NewsletterForm.initial Hnamed).
Defined.

End RefactorFacts.

(** ** The tree's state as a function of the events so far *)

Module HistoryFacts.
Import JS DOM Vocabulary Observations.

Lemma tree_run_app (before after : list App.Input) (st : App.State) :
  App.run (before ++ after) st = App.run after (App.run before st).
Proof. unfold App.run. apply fold_left_app. Qed.

Lemma tree_run_cons (i : App.Input) (inputs : list App.Input) (st : App.State) :
  App.run (i :: inputs) st = App.run inputs (App.dispatch st i).
Proof. reflexivity. Qed.

Lemma run_keeps_form (inputs : list App.Input) : forall st,
  Forall (fun i => numberEvent i = None) inputs ->
  App.form (App.run inputs st) = App.form st.
Proof.
  induction inputs as [|i inputs IH]; intros st Hno; [reflexivity|].
  inversion Hno as [|? ? Hi Hrest]; subst.
  rewrite tree_run_cons, IH by exact Hrest.
  destruct i; [reflexivity|reflexivity|discriminate].
Qed.

Lemma run_keeps_number (inputs : list App.Input) : forall st,
  Forall (fun i => keepsNumber i = true) inputs ->
  NumberForm.number (App.form (App.run inputs st))
  = NumberForm.number (App.form st).
Proof.
  induction inputs as [|i inputs IH]; intros st Hkeep; [reflexivity|].
  inversion Hkeep as [|? ? Hi Hrest]; subst.
  rewrite tree_run_cons, IH by exact Hrest.
  destruct i as [e|e|e]; [reflexivity|reflexivity|].
  unfold keepsNumber in Hi. simpl in Hi. apply negb_true_iff in Hi.
  simpl. rewrite NumberFormFacts.handleNumberChange_cases, Hi. reflexivity.
Qed.

Lemma number_dispatch (st : App.State) (e : Event) :
  App.form (App.dispatch st (App.NumberInput e))
  = if parsesInRange (value (target e))
    then {| NumberForm.number := parseInt (value (target e));
            NumberForm.isInvalidNumber := None |}
    else {| NumberForm.number := NumberForm.number (App.form st);
            NumberForm.isInvalidNumber := Some (rejection e) |}.
Proof.
  simpl. rewrite NumberFormFacts.handleNumberChange_cases.
  destruct (parsesInRange (value (target e))); reflexivity.
Qed.

(** X5.  After any sequence of change events on the three inputs, the
    message is decided by the last change of the numeric input alone
    ([null] when its text passed, the rejection of its text otherwise), and
    the stored number is the parse of the last change that passed, however
    many rejected changes followed it.  Without a change of the numeric
    input its state is what it was, and without one that passed so is the
    number. *)
Theorem number_field_follows_its_last_events
    (st0 : App.State) (inputs : list App.Input) :
  let st := App.form (App.run inputs st0) in
  (Forall (fun i => numberEvent i = None) inputs -> st = App.form st0)
  /\ (forall before e after,
        inputs = before ++ App.NumberInput e :: after ->
        Forall (fun i => numberEvent i = None) after ->
        NumberForm.isInvalidNumber st
        = if parsesInRange (value (target e)) then None
          else Some (rejection e))
  /\ (forall before e after,
        inputs = before ++ App.NumberInput e :: after ->
        parsesInRange (value (target e)) = true ->
        Forall (fun i => keepsNumber i = true) after ->
        NumberForm.number st = parseInt (value (target e)))
  /\ (Forall (fun i => keepsNumber i = true) inputs ->
      NumberForm.number st = NumberForm.number (App.form st0)).
Proof.
  intros st. unfold st. split; [apply run_keeps_form|]. split; [|split].
  - intros before e after Hsplit Hno. subst inputs.
    rewrite tree_run_app, tree_run_cons, run_keeps_form by exact Hno.
    rewrite number_dispatch.
    destruct (parsesInRange (value (target e))); reflexivity.
  - intros before e after Hsplit Hpass Hkeep. subst inputs.
    rewrite tree_run_app, tree_run_cons, run_keeps_number by exact Hkeep.
    rewrite number_dispatch, Hpass. reflexivity.
  - apply run_keeps_number.
Qed.

(** [4] passes, then [7] and a text without digits are rejected while the
    first name is edited: the number is still [4], the message is that of
    the last rejection. *)
Lemma number_field_follows_example :
  let inputs := [App.NumberInput (numberInput "4");
                 App.NumberInput (numberInput "7");
                 App.FirstNameInput (textInput "" "Ann");
                 App.NumberInput (numberInput "x")] in
  let st := App.form (App.run inputs App.initial) in
  NumberForm.number st = ofZ 4
  /\ NumberForm.isInvalidNumber st
     = Some (str "NaN is not a valid number!").
Proof.
  intros inputs st.
  destruct (number_field_follows_its_last_events App.initial inputs)
    as (_ & Hmessage & Hnumber & _).
  split.
  - refine (Hnumber [] (numberInput "4") _ eq_refl eq_refl _).
    repeat constructor.
  - unfold st.
    rewrite (Hmessage [App.NumberInput (numberInput "4");
                       App.NumberInput (numberInput "7");
                       App.FirstNameInput (textInput "" "Ann")]
                      (numberInput "x") [] eq_refl (List.Forall_nil _)).
    vm_compute. reflexivity.
Defined.

Lemma run_keeps_firstName (inputs : list App.Input) : forall st,
  Forall (fun i => firstNameEvent i = None) inputs ->
  Parent.firstName (App.parent (App.run inputs st))
  = Parent.firstName (App.parent st).
Proof.
  induction inputs as [|i inputs IH]; intros st Hno; [reflexivity|].
  inversion Hno as [|? ? Hi Hrest]; subst.
  rewrite tree_run_cons, IH by exact Hrest.
  destruct i; [discriminate|reflexivity|reflexivity].
Qed.

Lemma run_keeps_lastName (inputs : list App.Input) : forall st,
  Forall (fun i => lastNameEvent i = None) inputs ->
  Parent.lastName (App.parent (App.run inputs st))
  = Parent.lastName (App.parent st).
Proof.
  induction inputs as [|i inputs IH]; intros st Hno; [reflexivity|].
  inversion Hno as [|? ? Hi Hrest]; subst.
  rewrite tree_run_cons, IH by exact Hrest.
  destruct i; [reflexivity|discriminate|reflexivity].
Qed.

(** X6.  After any sequence of change events on the three inputs, each
    text field of [Parent] holds the text of the last change of its own
    input, whatever that text is (nothing is validated or trimmed), and
    what it held before when its input never changed; changes of the other
    text input and of the numeric input do not reach it. *)
Theorem text_fields_follow_their_last_events
    (st0 : App.State) (inputs : list App.Input) :
  let st := App.parent (App.run inputs st0) in
  (forall before e after,
     inputs = before ++ App.FirstNameInput e :: after ->
     Forall (fun i => firstNameEvent i = None) after ->
     Parent.firstName st = value (target e))
  /\ (Forall (fun i => firstNameEvent i = None) inputs ->
      Parent.firstName st = Parent.firstName (App.parent st0))
  /\ (forall before e after,
        inputs = before ++ App.LastNameInput e :: after ->
        Forall (fun i => lastNameEvent i = None) after ->
        Parent.lastName st = value (target e))
  /\ (Forall (fun i => lastNameEvent i = None) inputs ->
      Parent.lastName st = Parent.lastName (App.parent st0)).
Proof.
  intros st. unfold st. split; [|split; [|split]].
  - intros before e after Hsplit Hno. subst inputs.
    rewrite tree_run_app, tree_run_cons, run_keeps_firstName by exact Hno.
    reflexivity.
  - apply run_keeps_firstName.
  - intros before e after Hsplit Hno. subst inputs.
    rewrite tree_run_app, tree_run_cons, run_keeps_lastName by exact Hno.
    reflexivity.
  - apply run_keeps_lastName.
Qed.

Lemma text_fields_follow_example :
  let inputs := [App.FirstNameInput (textInput "" "Johns");
                 App.NumberInput (numberInput "9");
                 App.FirstNameInput (textInput "" "")] in
  let st := App.parent (App.run inputs App.initial) in
  Parent.firstName st = [] /\ Parent.lastName st = str "Henry".
Proof.
  intros inputs st.
  destruct (text_fields_follow_their_last_events App.initial inputs)
    as (Hfirst & _ & _ & Hlast).
  split.
  - exact (Hfirst [App.FirstNameInput (textInput "" "Johns");
                   App.NumberInput (numberInput "9")]
                  (textInput "" "") [] eq_refl (List.Forall_nil _)).
  - refine (Hlast _). repeat constructor.
Defined.

End HistoryFacts.

(** ** Which texts the numeric input accepts *)

Module NumberTextFacts.
Import JS DOM NumberForm Vocabulary Observations.
Local Open Scope Z_scope.

Lemma decimal_digit_cases (c : N) :
  isDecimalDigit c = true ->
  (c = 48 \/ c = 49 \/ c = 50 \/ c = 51 \/ c = 52
   \/ c = 53 \/ c = 54 \/ c = 55 \/ c = 56 \/ c = 57)%N.
Proof.
  unfold isDecimalDigit. intros [H1 H2]%andb_prop.
  apply N.leb_le in H1, H2. lia.
Qed.

Ltac each_digit H :=
  apply decimal_digit_cases in H;
  destruct H as [->|[->|[->|[->|[->|[->|[->|[->|[->| ->]]]]]]]]].

Lemma trimStart_white_space (ws s : jsstring) :
  Forall (fun c => isStrWhiteSpaceChar c = true) ws ->
  trimStart (ws ++ s) = trimStart s.
Proof.
  induction 1 as [|c ws Hc _ IH]; [reflexivity|].
  simpl. rewrite Hc. exact IH.
Qed.

Lemma radixDigit_decimal (c : N) :
  isDecimalDigit c = true -> radixDigit 10 c = Some (Z.of_N c - 48).
Proof. intros H. each_digit H; reflexivity. Qed.

Lemma radixDigit_other (c : N) :
  isDecimalDigit c = false -> radixDigit 10 c = None.
Proof.
  unfold isDecimalDigit, radixDigit, digitValue. intros ->.
  destruct ((97 <=? c)%N && (c <=? 122)%N) eqn:Hlower.
  { apply andb_prop in Hlower as [H1%N.leb_le _].
    destruct (Z.ltb_spec (Z.of_N c - 87) 10); [lia|reflexivity]. }
  destruct ((65 <=? c)%N && (c <=? 90)%N) eqn:Hupper; [|reflexivity].
  apply andb_prop in Hupper as [H1%N.leb_le _].
  destruct (Z.ltb_spec (Z.of_N c - 55) 10); [lia|reflexivity].
Qed.

Lemma leadingDigits_decimal (ds rest : jsstring) :
  Forall (fun c => isDecimalDigit c = true) ds ->
  noLeadingDigit rest = true ->
  leadingDigits 10 (ds ++ rest) = map (fun c => Z.of_N c - 48) ds.
Proof.
  intros Hds Hrest. induction Hds as [|c ds Hc _ IH]; simpl.
  - destruct rest as [|c rest]; [reflexivity|]. simpl in Hrest.
    apply negb_true_iff in Hrest. simpl.
    rewrite radixDigit_other by exact Hrest. reflexivity.
  - rewrite radixDigit_decimal by exact Hc. rewrite IH. reflexivity.
Qed.

(** A text that starts with a decimal digit has no sign to strip. *)
Lemma no_sign_before_digit (c : N) (s : jsstring) :
  isDecimalDigit c = true ->
  trimStart (c :: s) = c :: s
  /\ match c :: s with 45%N :: _ => true | _ => false end = false
  /\ match c :: s with
     | 45%N :: s' => s'
     | 43%N :: s' => s'
     | _ => c :: s
     end = c :: s.
Proof. intros H. each_digit H; repeat split; reflexivity. Qed.

(** Digits that do not spell the prefix [0x] are read in radix 10. *)
Lemma decimal_without_prefix (ds rest : jsstring) :
  ds <> [] ->
  Forall (fun c => isDecimalDigit c = true) ds ->
  noHexPrefix ds rest = true ->
  match ds ++ rest with
  | 48%N :: 120%N :: s' => (16, s')
  | 48%N :: 88%N :: s' => (16, s')
  | _ => (10, ds ++ rest)
  end = (10, ds ++ rest).
Proof.
  intros Hne Hds Hhex. destruct ds as [|d ds]; [congruence|].
  inversion Hds as [|? ? Hd Hds']; subst.
  each_digit Hd; try reflexivity.
  destruct ds as [|d2 ds].
  - destruct rest as [|c rest]; [reflexivity|].
    simpl in Hhex |- *.
    destruct c as [|p]; [reflexivity|].
    do 7 (try (destruct p as [p|p|]; try reflexivity; try discriminate)).
  - inversion Hds' as [|? ? Hd2 _]; subst.
    each_digit Hd2; reflexivity.
Qed.

Lemma parseInteger_decimal (ws sign ds rest : jsstring) :
  Forall (fun c => isStrWhiteSpaceChar c = true) ws ->
  isSign sign = true ->
  ds <> [] ->
  Forall (fun c => isDecimalDigit c = true) ds ->
  noLeadingDigit rest = true ->
  noHexPrefix ds rest = true ->
  parseInteger (ws ++ sign ++ ds ++ rest)
  = Some (bool_decide (sign = [45%N]), decimalValue ds).
Proof.
  intros Hws Hsign Hne Hds Hrest Hhex.
  unfold parseInteger. rewrite trimStart_white_space by exact Hws.
  assert (Hhead : exists d ds', ds = d :: ds' /\ isDecimalDigit d = true).
  { destruct ds as [|d ds']; [congruence|]. inversion Hds; subst. eauto. }
  destruct Hhead as (d & ds' & Heq & Hd).
  apply bool_decide_eq_true_1 in Hsign.
  assert (Hstripped :
            trimStart (sign ++ ds ++ rest) = sign ++ ds ++ rest
            /\ match sign ++ ds ++ rest with
               | 45%N :: _ => true | _ => false end
               = bool_decide (sign = [45%N])
            /\ match sign ++ ds ++ rest with
               | 45%N :: s' => s'
               | 43%N :: s' => s'
               | _ => sign ++ ds ++ rest
               end = ds ++ rest).
  { destruct Hsign as [->|[->| ->]]; [|repeat split; reflexivity..].
    rewrite Heq. simpl app.
    destruct (no_sign_before_digit d (ds' ++ rest) Hd) as (H1 & H2 & H3).
    repeat split; assumption. }
  destruct Hstripped as (Htrim & Hminus & Hbody).
  rewrite Htrim, Hminus, Hbody.
  rewrite decimal_without_prefix by assumption.
  rewrite leadingDigits_decimal by assumption.
  rewrite Heq. reflexivity.
Qed.

(** X7.  Take a text made of white space, an optional sign, at least one
    decimal digit, and a rest that does not go on with a digit (and does
    not make the digits the prefix [0x]).  The rest plays no part: the
    change is accepted exactly when the digits denote at most 5 and, under
    a minus sign, zero.  An accepted change stores the number the digits
    denote, negative zero under a minus sign.  So [5.9], [3 apples] and
    [-0.5] are accepted, [12] and [-1] are not. *)
Theorem number_text_decided_by_sign_and_digits
    (e : Event) (ws sign ds rest : jsstring) :
  value (target e) = ws ++ sign ++ ds ++ rest ->
  Forall (fun c => isStrWhiteSpaceChar c = true) ws ->
  isSign sign = true ->
  ds <> [] ->
  Forall (fun c => isDecimalDigit c = true) ds ->
  noLeadingDigit rest = true ->
  noHexPrefix ds rest = true ->
  let v := decimalValue ds in
  let minus := bool_decide (sign = [45%N]) in
  handleNumberChange e
  = if (v <=? 5) && (negb minus || (v =? 0))
    then [setNumber (if v =? 0
                     then (if minus then negZero else posZero)
                     else ofZ v);
          setIsInvalidNumber None]
    else [setIsInvalidNumber (Some (rejection e))].
Proof.
  intros Htext Hws Hsign Hne Hds Hrest Hhex v minus.
  pose proof (parseInteger_decimal ws sign ds rest
                Hws Hsign Hne Hds Hrest Hhex) as Hparse.
  fold v minus in Hparse. rewrite <- Htext in Hparse.
  pose proof (ParseIntFacts.parseInteger_nonneg _ _ _ Hparse) as Hv.
  rewrite NumberFormFacts.handleNumberChange_cases.
  unfold parsesInRange, parseInt, rejection, parseInt.
  rewrite Hparse. unfold signed. simpl fst. simpl snd.
  destruct (Z.eqb_spec v 0) as [->|Hnz].
  - destruct minus; reflexivity.
  - destruct minus; simpl negb; simpl orb.
    + rewrite andb_false_r.
      destruct (Z.leb_spec 0 (- v)); [lia|]. reflexivity.
    + rewrite andb_true_r.
      destruct (Z.leb_spec 0 v); [|lia]. simpl andb.
      destruct (v <=? 5); reflexivity.
Qed.

(** [ -0.5] is accepted and stores negative zero. *)
Lemma number_text_example :
  let e := numberInput " -0.5" in
  value (target e) = str " " ++ str "-" ++ str "0" ++ str ".5"
  /\ handleNumberChange e = [setNumber negZero; setIsInvalidNumber None].
Proof.
  intros e. split; [reflexivity|].
  refine (number_text_decided_by_sign_and_digits
            e (str " ") (str "-") (str "0") (str ".5") eq_refl _ eq_refl _ _
            eq_refl eq_refl).
  - repeat constructor.
  - discriminate.
  - repeat constructor.
Defined.

End NumberTextFacts.

(** ** The rows the list of submissions shows *)

Module SubmissionRowsFacts.
Import JS DOM SubmissionList SubmissionRows Vocabulary Observations.

Lemma renderRow_keeps (h h' : Heap) (l : loc) (row : jsstring) :
  (forall l o, h !! l = Some o -> h' !! l = Some o) ->
  renderRow h l = Some row -> renderRow h' l = Some row.
Proof.
  intros Hkeep. unfold renderRow, loc in *.
  destruct (h !! l) as [o|] eqn:Hl; [|discriminate].
  rewrite (Hkeep l o Hl). auto.
Qed.

Lemma rows_keep (h h' : Heap) (elems : list loc) (rows : list jsstring) :
  (forall l o, h !! l = Some o -> h' !! l = Some o) ->
  mapM (renderRow h) elems = Some rows ->
  mapM (renderRow h') elems = Some rows.
Proof.
  intros Hkeep Hrows. apply mapM_Some. apply mapM_Some in Hrows.
  eapply Forall2_impl; [exact Hrows|].
  intros l row. apply renderRow_keeps, Hkeep.
Qed.

Lemma renderRow_snapshot (h : Heap) (l : loc) (first last : jsstring) :
  h !! l = Some (snapshot first last) ->
  renderRow h l = Some (first ++ str " " ++ last).
Proof.
  intros Hl. unfold renderRow. rewrite Hl. unfold snapshot.
  rewrite lookup_insert_eq.
  rewrite lookup_insert_ne by (vm_compute; discriminate).
  rewrite lookup_singleton_eq. reflexivity.
Qed.

Lemma listOfSubmissions_inv (a : loc) (h : Heap) (rows : list jsstring) :
  listOfSubmissions a h = Some rows <->
  exists elems,
    h !! a = Some (HArray elems) /\ mapM (renderRow h) elems = Some rows.
Proof.
  unfold listOfSubmissions. split.
  - destruct (h !! a) as [[props|elems]|]; try discriminate. eauto.
  - intros (elems & -> & Hrows). exact Hrows.
Qed.

Lemma submit_rows (st : State) (h : Heap) (rows : list jsstring) :
  listOfSubmissions (submittedData st) h = Some rows ->
  exists st1 h1,
    dispatch (st, h) Submit = Some (st1, h1)
    /\ firstName st1 = [] /\ lastName st1 = []
    /\ listOfSubmissions (submittedData st1) h1
       = Some (rows ++ [firstName st ++ str " " ++ lastName st]).
Proof.
  intros (elems & Harr & Hrows)%listOfSubmissions_inv.
  destruct (SubmissionListFacts.submit_step st h elems Harr)
    as (st1 & h1 & r & Hd & Hf & Hl & _ & Hsnap & Harr1 & Hkeep).
  exists st1, h1. repeat (split; [assumption|]).
  apply listOfSubmissions_inv. exists (elems ++ [r]).
  split; [exact Harr1|].
  apply mapM_Some, Forall2_app.
  - apply mapM_Some. eapply rows_keep; eassumption.
  - constructor; [|constructor]. apply renderRow_snapshot, Hsnap.
Qed.

Lemma dispatch_rows
    (st : State) (h : Heap) (rows : list jsstring) (i : Input) :
  listOfSubmissions (submittedData st) h = Some rows ->
  exists st' h' more,
    dispatch (st, h) i = Some (st', h')
    /\ listOfSubmissions (submittedData st') h' = Some (rows ++ more)
    /\ length more = length (filter isSubmit [i]).
Proof.
  intros Hrows. destruct i as [event|event|].
  - eexists _, h, []. rewrite app_nil_r. repeat split. exact Hrows.
  - eexists _, h, []. rewrite app_nil_r. repeat split. exact Hrows.
  - destruct (submit_rows st h rows Hrows) as (st1 & h1 & Hd & _ & _ & Hrows1).
    eexists st1, h1, [_]. repeat split; eassumption.
Qed.

Lemma run_rows (inputs : list Input) :
  forall (st : State) (h : Heap) (rows : list jsstring),
  listOfSubmissions (submittedData st) h = Some rows ->
  exists st' h' more,
    run inputs (st, h) = Some (st', h')
    /\ listOfSubmissions (submittedData st') h' = Some (rows ++ more)
    /\ length more = length (filter isSubmit inputs).
Proof.
  induction inputs as [|i inputs IH]; intros st h rows Hrows.
  - exists st, h, []. rewrite app_nil_r. repeat split. exact Hrows.
  - destruct (dispatch_rows st h rows i Hrows)
      as (st1 & h1 & more1 & Hd & Hrows1 & Hlen1).
    destruct (IH st1 h1 (rows ++ more1) Hrows1)
      as (st2 & h2 & more2 & Hr & Hrows2 & Hlen2).
    exists st2, h2, (more1 ++ more2).
    change (run (i :: inputs) (st, h))
      with (match dispatch (st, h) i with
            | Some s' => run inputs s'
            | None => None
            end).
    rewrite Hd. split; [exact Hr|]. rewrite app_assoc.
    split; [exact Hrows2|].
    rewrite length_app, Hlen1, Hlen2.
    change (i :: inputs) with ([i] ++ inputs).
    rewrite filter_app, length_app. reflexivity.
Qed.

(** X8.  While the list of submissions renders (its state is an array of
    objects), every event succeeds and the list only grows at its end:
    the rows it showed stay as they are, typing adds none, and each
    submission adds exactly one, showing the two names as they were when
    it was submitted.  Nothing guards against an empty form: since a
    submission empties both fields, submitting twice in a row adds a
    second row that shows a single space. *)
Theorem list_of_submissions_grows_one_row_per_submit
    (st : State) (h : Heap) (rows : list jsstring) :
  listOfSubmissions (submittedData st) h = Some rows ->
  (forall inputs, exists st' h' more,
      run inputs (st, h) = Some (st', h')
      /\ listOfSubmissions (submittedData st') h' = Some (rows ++ more)
      /\ length more = length (filter isSubmit inputs))
  /\ (exists st' h',
        run [Submit] (st, h) = Some (st', h')
        /\ listOfSubmissions (submittedData st') h'
           = Some (rows ++ [firstName st ++ str " " ++ lastName st]))
  /\ (exists st' h',
        run [Submit; Submit] (st, h) = Some (st', h')
        /\ listOfSubmissions (submittedData st') h'
           = Some (rows ++ [firstName st ++ str " " ++ lastName st;
                            str " "])).
Proof.
  intros Hrows.
  split; [intros inputs; apply run_rows, Hrows|].
  destruct (submit_rows st h rows Hrows)
    as (st1 & h1 & Hd1 & Hf1 & Hl1 & Hrows1).
  destruct (submit_rows st1 h1 _ Hrows1)
    as (st2 & h2 & Hd2 & _ & _ & Hrows2).
  split.
  - exists st1, h1. split; [|exact Hrows1].
    change (run [Submit] (st, h))
      with (match dispatch (st, h) Submit with
            | Some s' => run [] s'
            | None => None
            end).
    rewrite Hd1. reflexivity.
  - exists st2, h2. split.
    + change (run [Submit; Submit] (st, h))
        with (match dispatch (st, h) Submit with
              | Some s' => run [Submit] s'
              | None => None
              end).
      rewrite Hd1.
      change (run [Submit] (st1, h1))
        with (match dispatch (st1, h1) Submit with
              | Some s' => run [] s'
              | None => None
              end).
      rewrite Hd2. reflexivity.
    + rewrite Hrows2, Hf1, Hl1, <- app_assoc. reflexivity.
Qed.

(** On the initial form: a submission, a new first name, two more
    submissions. *)
Lemma list_of_submissions_example :
  let inputs := [Submit; FirstNameInput (textInput "" "Ann"); Submit; Submit] in
  listOfSubmissions (submittedData (fst initial)) (snd initial) = Some []
  /\ exists st' h' more,
       run inputs initial = Some (st', h')
       /\ listOfSubmissions (submittedData st') h' = Some ([] ++ more)
       /\ length more = 3.
Proof.
  intros inputs. split; [reflexivity|].
  destruct (list_of_submissions_grows_one_row_per_submit
              (fst initial) (snd initial) [] eq_refl) as (Hrun & _).
  exact (Hrun inputs).
Defined.

End SubmissionRowsFacts.

(** ** Submitting again *)

Module ResubmitFacts.
Import JS DOM SubmitForm Vocabulary.

(** X9.  The submit handler does not look at what it sends.  After one
    submission has been committed, submitting again calls the callback
    with the object of two empty strings, whatever the fields held before
    the first submission, and commits the state the first one left. *)
Theorem submit_after_submit_sends_empty_names (cells : Cells) (a b : Value) :
  cells !! str "firstName" = Some a ->
  cells !! str "lastName" = Some b ->
  exists calls calls',
    onSubmit cells = Some calls
    /\ onSubmit (commit cells calls) = Some calls'
    /\ received calls'
       = [ {[ str "firstName" := Str []; str "lastName" := Str [] ]} ]
    /\ commit (commit cells calls) calls' = commit cells calls.
Proof.
  intros Ha Hb.
  assert (Hcommit : commit cells (handleSubmit a b)
                    = <[str "lastName" := Str []]>
                        (<[str "firstName" := Str []]> cells))
    by reflexivity.
  exists (handleSubmit a b), (handleSubmit (Str []) (Str [])).
  split; [unfold onSubmit; rewrite Ha, Hb; reflexivity|].
  rewrite Hcommit. split.
  { unfold onSubmit.
    rewrite lookup_insert_ne by (vm_compute; discriminate).
    rewrite !lookup_insert_eq. reflexivity. }
  split; [reflexivity|].
  change (commit ?m (handleSubmit (Str []) (Str [])))
    with (<[str "lastName" := Str []]> (<[str "firstName" := Str []]> m)).
  apply map_eq. intros k.
  destruct (decide (k = str "lastName")) as [->|Hlast];
    [rewrite !lookup_insert_eq; reflexivity|].
  rewrite !(lookup_insert_ne _ (str "lastName")) by congruence.
  destruct (decide (k = str "firstName")) as [->|Hfirst];
    [rewrite !lookup_insert_eq; reflexivity|].
  rewrite !lookup_insert_ne by congruence. reflexivity.
Qed.

Lemma submit_after_submit_example :
  let cells : Cells := {[ str "firstName" := Str (str "A");
                          str "lastName" := Str (str "B") ]} in
  exists calls calls',
    onSubmit cells = Some calls
    /\ onSubmit (commit cells calls) = Some calls'
    /\ received calls'
       = [ {[ str "firstName" := Str []; str "lastName" := Str [] ]} ].
Proof.
  intros cells.
  destruct (submit_after_submit_sends_empty_names cells
              (Str (str "A")) (Str (str "B")) eq_refl eq_refl)
    as (calls & calls' & H1 & H2 & H3 & _).
  exists calls, calls'. auto.
Defined.

End ResubmitFacts.

(** ** Hexadecimal texts in the numeric input *)

Module HexTextFacts.
Import JS DOM NumberForm Vocabulary Observations.
Local Open Scope Z_scope.

(** What the handler does once [parseInt] has read a sign and a
    magnitude. *)
Lemma handleNumberChange_of_parse (e : Event) (minus : bool) (v : Z) :
  parseInteger (value (target e)) = Some (minus, v) ->
  handleNumberChange e
  = if (v <=? 5) && (negb minus || (v =? 0))
    then [setNumber (if v =? 0
                     then (if minus then negZero else posZero)
                     else ofZ v);
          setIsInvalidNumber None]
    else [setIsInvalidNumber (Some (rejection e))].
Proof.
  intros Hparse.
  pose proof (ParseIntFacts.parseInteger_nonneg _ _ _ Hparse) as Hv.
  rewrite NumberFormFacts.handleNumberChange_cases.
  unfold parsesInRange, parseInt, rejection, parseInt.
  rewrite Hparse. unfold signed. simpl fst. simpl snd.
  destruct (Z.eqb_spec v 0) as [->|Hnz].
  - destruct minus; reflexivity.
  - destruct minus; simpl negb; simpl orb.
    + rewrite andb_false_r.
      destruct (Z.leb_spec 0 (- v)); [lia|]. reflexivity.
    + rewrite andb_true_r.
      destruct (Z.leb_spec 0 v); [|lia]. simpl andb.
      destruct (v <=? 5); reflexivity.
Qed.

Lemma parseInteger_hexadecimal (ws sign rest : jsstring) (x : N) :
  Forall (fun c => isStrWhiteSpaceChar c = true) ws ->
  isSign sign = true ->
  x = 120%N \/ x = 88%N ->
  parseInteger (ws ++ sign ++ 48%N :: x :: rest)
  = match leadingDigits 16 rest with
    | [] => None
    | _ => Some (bool_decide (sign = [45%N]),
                 radixValue 16 (leadingDigits 16 rest))
    end.
Proof.
  intros Hws Hsign Hx.
  unfold parseInteger.
  rewrite NumberTextFacts.trimStart_white_space by exact Hws.
  apply bool_decide_eq_true_1 in Hsign.
  destruct Hsign as [->|[->| ->]], Hx as [->| ->]; reflexivity.
Qed.

(** X10.  A text made of white space, an optional sign and [0x] or [0X]
    is read in radix 16, which the range check does not tell from radix
    10.  With no hexadecimal digit after the prefix the change is rejected
    with the message for NaN, although the text starts with the digit 0.
    Otherwise the hexadecimal digits that follow decide like decimal ones:
    accepted exactly when they denote at most 5 and, under a minus sign,
    zero.  So [0x5] is accepted and stores 5, and [0x] is not. *)
Theorem hexadecimal_text_is_read_in_radix_16
    (e : Event) (ws sign rest : jsstring) (x : N) :
  value (target e) = ws ++ sign ++ 48%N :: x :: rest ->
  Forall (fun c => isStrWhiteSpaceChar c = true) ws ->
  isSign sign = true ->
  x = 120%N \/ x = 88%N ->
  let minus := bool_decide (sign = [45%N]) in
  let v := radixValue 16 (leadingDigits 16 rest) in
  handleNumberChange e
  = match leadingDigits 16 rest with
    | [] => [setIsInvalidNumber (Some (str "NaN is not a valid number!"))]
    | _ =>
        if (v <=? 5) && (negb minus || (v =? 0))
        then [setNumber (if v =? 0
                         then (if minus then negZero else posZero)
                         else ofZ v);
              setIsInvalidNumber None]
        else [setIsInvalidNumber (Some (rejection e))]
    end.
Proof.
  intros Htext Hws Hsign Hx minus v.
  pose proof (parseInteger_hexadecimal ws sign rest x Hws Hsign Hx) as Hparse.
  rewrite <- Htext in Hparse. unfold v.
  destruct (leadingDigits 16 rest) as [|h hs] eqn:Hdigits.
  - unfold handleNumberChange, parseInt. rewrite Hparse. reflexivity.
  - apply handleNumberChange_of_parse. exact Hparse.
Qed.

(** [0x5] stores 5; [0x] and [0xg] are rejected as NaN; [0x10] is 16. *)
Lemma hexadecimal_text_example :
  handleNumberChange (numberInput "0x5")
  = [setNumber (ofZ 5); setIsInvalidNumber None]
  /\ handleNumberChange (numberInput "0x")
     = [setIsInvalidNumber (Some (str "NaN is not a valid number!"))]
  /\ handleNumberChange (numberInput "0X10")
     = [setIsInvalidNumber (Some (str "16 is not a valid number!"))].
Proof.
  split; [|split].
  - exact (hexadecimal_text_is_read_in_radix_16
             (numberInput "0x5") [] [] (str "5") 120%N
             eq_refl (List.Forall_nil _) eq_refl (or_introl eq_refl)).
  - exact (hexadecimal_text_is_read_in_radix_16
             (numberInput "0x") [] [] [] 120%N
             eq_refl (List.Forall_nil _) eq_refl (or_introl eq_refl)).
  - rewrite (hexadecimal_text_is_read_in_radix_16
               (numberInput "0X10") [] [] (str "10") 88%N
               eq_refl (List.Forall_nil _) eq_refl (or_intror eq_refl)).
    vm_compute. reflexivity.
Defined.

End HexTextFacts.
